(** * Users service and API gateway of the microservice repository

    A shallow embedding of [src/unnamed/part_000] (the [api] gateway service,
    its [authorize] method) and of [src/services/users.service.js] (the
    [users] service: create, login, resolveToken, me, update, delete,
    uploadImage, getImage), with the parts of moleculer, moleculer-db and its
    Mongo adapter that the service relies on: the merged action schemas, the
    validator, the action cacher, and the [users] collection queried by
    [_id] and [phoneNumber].

    JavaScript objects (request params, Mongo documents, JWT payloads) are
    finite maps from field names to JS values; the [users] collection is the
    list of its documents in the collection's natural order.  The
    cryptographic collaborators (bcryptjs, jsonwebtoken), the phone-number
    regular expression, [path.join], the local-time [Date] arithmetic and the
    cacher's default TTL are section variables: every theorem holds for every
    implementation of them. *)

From stdpp Require Import base gmap strings list pretty.
From Stdlib Require Import ZArith Ascii.

Local Open Scope string_scope.
#[local] Set Warnings "-register-all".

(** ** JavaScript values and objects *)

(** [JOid h] is a BSON ObjectId, written as its 24 lower-case hex digits;
    [JObj] keeps the properties in their insertion order. *)
Inductive jsval :=
| JNull
| JBool (b : bool)
| JNum (n : Z)
| JStr (s : string)
| JOid (hex : string)
| JObj (fields : list (string * jsval)).

Fixpoint jsval_eq_dec (x y : jsval) {struct x} : {x = y} + {x <> y}.
Proof.
  refine (match x, y with
          | JNull, JNull => left eq_refl
          | JBool a, JBool b => match decide (a = b) with left H => left _ | right H => right _ end
          | JNum a, JNum b => match decide (a = b) with left H => left _ | right H => right _ end
          | JStr a, JStr b => match decide (a = b) with left H => left _ | right H => right _ end
          | JOid a, JOid b => match decide (a = b) with left H => left _ | right H => right _ end
          | JObj l1, JObj l2 =>
              match (fix go (l1 l2 : list (string * jsval)) : {l1 = l2} + {l1 <> l2} :=
                       match l1, l2 with
                       | [], [] => left eq_refl
                       | (k1, v1) :: r1, (k2, v2) :: r2 =>
                           match decide (k1 = k2), jsval_eq_dec v1 v2, go r1 r2 with
                           | left H1, left H2, left H3 => left _
                           | right H1, _, _ => right _
                           | _, right H2, _ => right _
                           | _, _, right H3 => right _
                           end
                       | _, _ => right _
                       end) l1 l2 with
              | left H => left _
              | right H => right _
              end
          | _, _ => right _
          end); congruence.
Defined.

#[global] Instance jsval_eq_decision : EqDecision jsval := jsval_eq_dec.

(** A JS object: [d !! k = None] is an absent (undefined) property. *)
Abbreviation doc := (gmap string jsval).

(** JavaScript truthiness of a property read ([undefined] is [None]). *)
Definition truthy (v : option jsval) : bool :=
  match v with
  | None | Some JNull => false
  | Some (JBool b) => b
  | Some (JNum n) => negb (Z.eqb n 0)
  | Some (JStr s) => negb (bool_decide (s = ""))
  | Some (JOid _) | Some (JObj _) => true
  end.

(** [JSON.stringify] of a value: an ObjectId serialises as its hex string. *)
Fixpoint to_json (v : jsval) : jsval :=
  match v with
  | JOid h => JStr h
  | JObj fs =>
      JObj ((fix go (fs : list (string * jsval)) : list (string * jsval) :=
               match fs with
               | [] => []
               | (k, x) :: r => (k, to_json x) :: go r
               end) fs)
  | _ => v
  end.

(** lodash [_.pick(obj, keys)]: the listed properties that are present. *)
Definition pick (keys : list string) (d : doc) : doc :=
  filter (fun kv => kv.1 ∈ keys) d.

(** ["a b".split(" ")]: JavaScript splits at every space, so [n] spaces give
    [n + 1] pieces, empty ones included. *)
Fixpoint split_sp (s : string) : list string :=
  match s with
  | EmptyString => [""]
  | String ch rest =>
      if bool_decide (ch = " "%char) then "" :: split_sp rest
      else match split_sp rest with
           | w :: ws => String ch w :: ws
           | [] => [String ch ""]
           end
  end.

(** ** String helpers: [split] on any separator, and its inverse [join] *)

(** [s.split(c)] for a one-character separator [c]. *)
Fixpoint split_on (c : ascii) (s : string) : list string :=
  match s with
  | EmptyString => [""]
  | String ch rest =>
      if bool_decide (ch = c) then "" :: split_on c rest
      else match split_on c rest with
           | w :: ws => String ch w :: ws
           | [] => [String ch ""]
           end
  end.

(** [l.join(c)]. *)
Fixpoint join_with (c : ascii) (l : list string) : string :=
  match l with
  | [] => ""
  | [w] => w
  | w :: ws => String.append w (String c (join_with c ws))
  end.

Fixpoint has_char (c : ascii) (s : string) : bool :=
  match s with
  | EmptyString => false
  | String ch rest => bool_decide (ch = c) || has_char c rest
  end.

(** [name.startsWith("$")]. *)
Definition starts_dollar (k : string) : bool :=
  match k with
  | String ch _ => bool_decide (ch = "$"%char)
  | EmptyString => false
  end.

(** ** ObjectIds *)

Fixpoint string_forallb (f : ascii -> bool) (s : string) : bool :=
  match s with
  | EmptyString => true
  | String ch rest => f ch && string_forallb f rest
  end.

Fixpoint string_map (f : ascii -> ascii) (s : string) : string :=
  match s with
  | EmptyString => EmptyString
  | String ch rest => String (f ch) (string_map f rest)
  end.

Definition is_hex_digit (ch : ascii) : bool :=
  let n := nat_of_ascii ch in
  ((48 <=? n) && (n <=? 57) || (65 <=? n) && (n <=? 70) || (97 <=? n) && (n <=? 102))%nat.

Definition lower_hex (ch : ascii) : ascii :=
  let n := nat_of_ascii ch in
  if ((65 <=? n) && (n <=? 70))%nat then ascii_of_nat (n + 32) else ch.

Definition hex_digit (n : nat) : ascii :=
  if (n <? 10)%nat then ascii_of_nat (48 + n) else ascii_of_nat (87 + n).

(** The hex form of a string's bytes, two digits per byte. *)
Fixpoint hex_of_bytes (s : string) : string :=
  match s with
  | EmptyString => EmptyString
  | String ch rest =>
      String (hex_digit (nat_of_ascii ch / 16)%nat)
        (String (hex_digit (nat_of_ascii ch mod 16)%nat) (hex_of_bytes rest))
  end.

(** The Mongo adapter's [stringToObjectID(id)]: a string [ObjectId.isValid]
    accepts (12 bytes, or 24 hex digits in either case) becomes
    [new ObjectId(id)]; any other value is used as it is. *)
Definition stringToObjectID (v : jsval) : jsval :=
  match v with
  | JStr s =>
      if (String.length s =? 24)%nat && string_forallb is_hex_digit s then JOid (string_map lower_hex s)
      else if (String.length s =? 12)%nat then JOid (hex_of_bytes s)
      else JStr s
  | _ => v
  end.

(** ** Errors: [{ name, code, data: [{ field, ... }] }] *)

Record error := mkError { err_name : string; err_code : Z; err_fields : list string }.

Definition unauthorized : error := mkError "UnAuthorizedError" 401 [].

(** [new MoleculerClientError(msg, code, "", [{ field, ... }])]. *)
Definition client_error (code : Z) (fields : list string) : error :=
  mkError "MoleculerClientError" code fields.

(** An error the Mongo server answers with, by its code. *)
Definition mongo_error (code : Z) : error := mkError "MongoServerError" code [].

(** ** The [users] collection and the adapter calls the service makes *)

(** The documents in the collection's natural order. *)
Abbreviation store := (list doc).

(** The first document [f] accepts, with those before and after it. *)
Fixpoint find_first (f : doc -> bool) (s : store) : option (list doc * doc * list doc) :=
  match s with
  | [] => None
  | d :: s' =>
      if f d then Some ([], d, s')
      else match find_first f s' with
           | Some (pre, x, post) => Some (d :: pre, x, post)
           | None => None
           end
  end.

(** A query value that is an object whose first key starts with [$] is an
    operator expression, not a value to compare with. *)
Definition is_operator_object (q : jsval) : bool :=
  match q with
  | JObj ((k, _) :: _) => starts_dollar k
  | _ => false
  end.

(** Mongo's equality match [{ field: q }]: [null] also matches a missing
    field. *)
Definition value_matches (q : jsval) (v : option jsval) : bool :=
  match q with
  | JNull => match v with None | Some JNull => true | _ => false end
  | _ => bool_decide (v = Some q)
  end.

(** [findOne({ field: q })] on the collection.  Every operator expression the
    service can send mixes an operator with a plain key (the route's [id]),
    and the server rejects it. *)
Definition find_eq (field : string) (q : jsval) (s : store)
  : error + option (list doc * doc * list doc) :=
  if is_operator_object q then inl (mongo_error 2)
  else inr (find_first (fun d => value_matches q (d !! field)) s).

Definition found (r : option (list doc * doc * list doc)) : option doc :=
  (fun t => t.1.2) <$> r.

(** moleculer-db [getById(id)] = Mongo adapter [findById(id)] =
    [findOne({ _id: stringToObjectID(id) })]. *)
Definition getById (id : jsval) (s : store) : error + option doc :=
  match find_eq "_id" (stringToObjectID id) s with
  | inl err => inl err
  | inr r => inr (found r)
  end.

(** The adapter's [findOne({ phoneNumber })]. *)
Definition findOne_phone (p : jsval) (s : store) : error + option doc :=
  match find_eq "phoneNumber" p s with
  | inl err => inl err
  | inr r => inr (found r)
  end.

(** Whether an object value holds a [$]-prefixed field name, at any depth. *)
Fixpoint dollar_field (v : jsval) : bool :=
  match v with
  | JObj fs =>
      (fix go (fs : list (string * jsval)) : bool :=
         match fs with
         | [] => false
         | (k, x) :: r => starts_dollar k || dollar_field x || go r
         end) fs
  | _ => false
  end.

(** The adapter's [insert(entity)] = [insertOne(entity)]: the driver gives a
    document whose [_id] is [null] or missing a fresh ObjectId; an [_id]
    holding a [$]-prefixed field is refused, and so is an [_id] already in
    the collection (the unique [_id] index, E11000); the document is appended
    to the collection. *)
Definition insert (entity : doc) (new_id : string) (s : store) : error + (doc * store) :=
  let idv := match entity !! "_id" with
             | None | Some JNull => JOid new_id
             | Some v => v
             end in
  let d := <["_id" := idv]> entity in
  if dollar_field idv then inl (mongo_error 2)
  else if existsb (fun d' => bool_decide (d' !! "_id" = Some idv)) s then inl (mongo_error 11000)
  else inr (d, (s ++ [d])%list).

(** *** [updateById(id, { $set: upd })] *)

Fixpoint assoc_lookup (k : string) (fs : list (string * jsval)) : option jsval :=
  match fs with
  | [] => None
  | (k', v) :: r => if bool_decide (k = k') then Some v else assoc_lookup k r
  end.

(** Setting a property of an embedded document: in place when present,
    appended otherwise. *)
Fixpoint assoc_put (k : string) (v : jsval) (fs : list (string * jsval)) : list (string * jsval) :=
  match fs with
  | [] => [(k, v)]
  | (k', v') :: r => if bool_decide (k = k') then (k, v) :: r else (k', v') :: assoc_put k v r
  end.

(** The value a field takes when [$set] writes [v] at the path [segs] below
    it: missing levels are created as embedded documents, and a path through
    a value that is not a document cannot be created ([None]). *)
Fixpoint put_path (segs : list string) (v : jsval) (cur : option jsval) : option jsval :=
  match segs with
  | [] => Some v
  | g :: rest =>
      match cur with
      | None => x ← put_path rest v None; Some (JObj [(g, x)])
      | Some (JObj fs) => x ← put_path rest v (assoc_lookup g fs); Some (JObj (assoc_put g x fs))
      | Some _ => None
      end
  end.

(** Each [$set] key is a dotted path; its first segment names the top-level
    field it writes. *)
Fixpoint apply_set (sets : list (string * jsval)) (d : doc) : option doc :=
  match sets with
  | [] => Some d
  | (k, v) :: rest =>
      match split_on "." k with
      | g :: segs => x ← put_path segs v (d !! g); apply_set rest (<[g := x]> d)
      | [] => apply_set rest d
      end
  end.

Fixpoint is_prefix (a b : list string) : bool :=
  match a, b with
  | [], _ => true
  | x :: a', y :: b' => bool_decide (x = y) && is_prefix a' b'
  | _ :: _, [] => false
  end.

(** No path of an update is a prefix of another one. *)
Fixpoint conflict_free (ps : list (list string)) : bool :=
  match ps with
  | [] => true
  | p :: rest => forallb (fun q => negb (is_prefix p q || is_prefix q p)) rest && conflict_free rest
  end.

(** The server's checks of a [$set] document before it looks for the
    document to update: no empty path segment, no [$]-prefixed one, and no
    two paths where one contains the other. *)
Definition set_paths_error (upd : doc) : option error :=
  let paths := map (fun kv => split_on "." kv.1) (map_to_list upd) in
  if existsb (existsb (fun g => bool_decide (g = ""))) paths then Some (mongo_error 56)
  else if existsb (existsb starts_dollar) paths then Some (mongo_error 52)
  else if negb (conflict_free paths) then Some (mongo_error 40)
  else None.

(** [findOneAndUpdate({ _id }, { $set: upd }, { returnOriginal: false })]:
    the updated document, or [null] when none matches; a path through a
    non-document value fails, and so does a change of the immutable [_id]. *)
Definition updateById (id : jsval) (upd : doc) (s : store) : error + (option doc * store) :=
  match set_paths_error upd with
  | Some err => inl err
  | None =>
      match find_eq "_id" (stringToObjectID id) s with
      | inl err => inl err
      | inr None => inr (None, s)
      | inr (Some (pre, d, post)) =>
          match apply_set (map_to_list upd) d with
          | None => inl (mongo_error 28)
          | Some d' =>
              if bool_decide (d' !! "_id" = d !! "_id") then inr (Some d', (pre ++ d' :: post)%list)
              else inl (mongo_error 66)
          end
      end
  end.

(** [removeById(id)] = [findOneAndDelete({ _id: stringToObjectID(id) })]. *)
Definition removeById (id : jsval) (s : store) : error + (option doc * store) :=
  match find_eq "_id" (stringToObjectID id) s with
  | inl err => inl err
  | inr None => inr (None, s)
  | inr (Some (pre, d, post)) => inr (Some d, (pre ++ post)%list)
  end.

(** Property [k] of the stored document whose [_id] is the string [uid]. *)
Definition field_of (s : store) (uid k : string) : option jsval :=
  match getById (JStr uid) s with
  | inr (Some d) => d !! k
  | _ => None
  end.

(** ** The broker's cacher *)

(** The keys the two cached actions use: [users.resolveToken] by its
    [token] param, [users.me] by [#userID], that is [ctx.meta.userID]. *)
Inductive cache_key := CKToken (token : string) | CKUser (userID : option jsval).

#[global] Instance cache_key_eq_dec : EqDecision cache_key.
Proof. solve_decision. Defined.

(** A MemoryCacher entry: the value and its expiry time in ms ([None]: it
    does not expire). *)
Record cached := mkCached { c_value : doc; c_expire : option Z }.

(** [cacher.get(key)] at time [now]: an entry past its expiry is a miss. *)
Definition cache_get (k : cache_key) (now : Z) (c : list (cache_key * cached)) : option doc :=
  match List.find (fun kv => bool_decide (kv.1 = k)) c with
  | Some (_, ce) =>
      match c_expire ce with
      | Some t => if Z.ltb t now then None else Some (c_value ce)
      | None => Some (c_value ce)
      end
  | None => None
  end.

(** [cacher.set(key, value, ttl)], the TTL in seconds. *)
Definition cache_set (k : cache_key) (v : doc) (ttl : option Z) (now : Z)
    (c : list (cache_key * cached)) : list (cache_key * cached) :=
  (k, mkCached v ((fun t => now + t * 1000)%Z <$> ttl))
    :: List.filter (fun kv => negb (bool_decide (kv.1 = k))) c.

(** The collection, the files on disk (by path, with their contents), and
    the cacher's entries for the [users] service. *)
Record world := mkWorld {
  users : store;
  files : gmap string string;
  cache : list (cache_key * cached)
}.

(** moleculer-db [entityChanged]: [clearCache()] cleans ["users.**"], every
    entry of both cached actions. *)
Definition clear_cache (w : world) : world := mkWorld (users w) (files w) [].

(** ** Request context *)

(** The [$meta] of a call context as [authorize] fills it. *)
Record meta := mkMeta { meta_user : option doc; meta_token : option string; meta_userID : option jsval }.

Definition empty_meta : meta := mkMeta None None None.

(** [ctx.meta.user = _.pick(user, [...])] in [authorize]. *)
Definition principal_fields : list string :=
  ["_id"; "phoneNumber"; "password"; "fullname"; "birthday"; "gender";
   "inviteCode"; "city"; "address"].

(** [settings.fields] of the users service: what [transformDocuments] keeps. *)
Definition settings_fields : list string :=
  ["_id"; "phoneNumber"; "password"; "fullname"; "birthday"; "gender";
   "inviteCode"; "city"; "address"].

(** What a call draws from its environment: the salt [hashSync] draws, the
    ObjectId the driver generates for an inserted document (its hex form),
    and [Date.now()]. *)
Record env := mkEnv { env_salt : nat; env_new_id : string; env_now_ms : Z }.

(** ** Sample collaborators and data, for concrete runs *)

(** A token verifier that accepts ["tokA"] for user ["u1"] and ["tokB"] for
    user ["u9"], at any time, and rejects every other string. *)
Definition sample_verify (now : Z) (t : string) : string + doc :=
  if bool_decide (t = "tokA") then inr {[ "id" := JStr "u1" ]}
  else if bool_decide (t = "tokB") then inr {[ "id" := JStr "u9" ]}
  else inl "invalid signature".

Definition sample_pattern (p : string) : bool := negb (bool_decide (p = "")).
Definition sample_hash (salt : nat) (pw : string) (rounds : Z) : string := String.append "$2a$10$" pw.
Definition sample_compare (pw h : string) : bool := bool_decide (h = String.append "$2a$10$" pw).
Definition sample_sign (payload : doc) : string := "signed".
Definition sample_join (dir name : string) : string := String.append dir (String.append "/" name).
(** [setDate(getDate() + 60)] in a process whose local time is UTC. *)
Definition sample_setDate60 (now : Z) : Z := (now + 60 * 86400000)%Z.

(** One stored user, whose [_id] is the string ["u1"] (a client may supply
    its own [_id] when registering), with a hashed password and no avatar. *)
Definition sample_user : doc :=
  {[ "_id" := JStr "u1"; "phoneNumber" := JStr "0912345678";
     "password" := JStr "$2a$10$secret12"; "fullname" := JStr "An";
     "birthday" := JStr "2000-01-01"; "gender" := JBool true;
     "city" := JStr "Hanoi"; "address" := JStr "1 Trang Tien"; "image" := JNull ]}.

Definition sample_world : world := mkWorld [sample_user] ∅ [].

Definition sample_env : env := mkEnv 7 "65a1b2c3d4e5f60718293a4b" 1700000000000.

(** The [ctx.meta] of a request by the owner of ["tokA"]. *)
Definition sample_meta : meta :=
  mkMeta (Some (pick principal_fields sample_user)) (Some "tokA") (Some (JStr "u1")).

(** Registration requests with the stored user's phone number: one valid,
    one whose password is too short for the entity validator. *)
Definition dup_params : doc :=
  {[ "phoneNumber" := JStr "0912345678"; "password" := JStr "secret99";
     "fullname" := JStr "Binh"; "birthday" := JStr "1999-09-09";
     "gender" := JBool false; "city" := JStr "Hue" ]}.

Definition short_dup_params : doc := <[ "password" := JStr "abc" ]> dup_params.

(** Login requests: an unknown phone with a short password, and the stored
    user's credentials. *)
Definition login_unknown_short : doc :=
  {[ "phoneNumber" := JStr "0900000000"; "password" := JStr "abc" ]}.

Definition login_ok : doc :=
  {[ "phoneNumber" := JStr "0912345678"; "password" := JStr "secret12" ]}.

(** A registration with a new phone number and an avatar path, and the
    login request with the same credentials. *)
Definition new_params : doc :=
  {[ "phoneNumber" := JStr "0987654321"; "password" := JStr "secret99";
     "fullname" := JStr "Binh"; "birthday" := JStr "1999-09-09";
     "gender" := JBool false; "city" := JStr "Hue"; "image" := JStr "/srv/b.png" ]}.

Definition login_new : doc :=
  {[ "phoneNumber" := JStr "0987654321"; "password" := JStr "secret99" ]}.

(** Update-self requests of the owner of ["tokA"]: one that changes
    [fullname], one with a dotted key. Both carry the required [id]. *)
Definition fullname_params : doc :=
  {[ "id" := JStr "u1"; "fullname" := JStr "Binh" ]}.

Definition dotted_params : doc :=
  {[ "id" := JStr "u1"; "inviteCode.x" := JStr "y" ]}.

Section Service.

(** ** Authentication *)

(** [jwt.verify(token, JWT_SECRET, cb)] at time [now] (ms): an error (a bad
    signature, an expired token, ...), or the decoded payload. *)
Variable jwt_verify : Z -> string -> string + doc.

(** The [users.resolveToken] handler: verify the token; when the payload has
    a truthy [id], fetch that user, otherwise resolve to [undefined]. *)
Definition resolveToken (now : Z) (token : string) (s : store) : error + option doc :=
  match jwt_verify now token with
  | inl msg => inl (mkError "JsonWebTokenError" 500 [])
  | inr decoded =>
      if truthy (decoded !! "id") then
        match decoded !! "id" with
        | Some id => getById id s
        | None => inr None
        end
      else inr None
  end.

(** The call [ctx.call("users.resolveToken", { token })] through the cacher
    ([cache: { keys: ["token"], ttl: 3600 }]): a live entry for the token is
    returned without running the handler; otherwise the handler runs and a
    user it returns is stored for an hour.  (An [undefined] result is stored
    too, but the cacher reads it back as a miss.) *)
Definition resolveToken_call (now : Z) (token : string) (w : world) : (error + option doc) * world :=
  match cache_get (CKToken token) now (cache w) with
  | Some u => (inr (Some u), w)
  | None =>
      match resolveToken now token (users w) with
      | inr (Some u) =>
          (inr (Some u), mkWorld (users w) (files w) (cache_set (CKToken token) u (Some 3600%Z) now (cache w)))
      | r => (r, w)
      end
  end.

(** The token [authorize] extracts from the [Authorization] header:
    [split(" ")[0]] must be ["Token"] or ["Bearer"], the token is
    [split(" ")[1]] ([undefined] when absent). *)
Definition extract_token (authorization : option string) : option string :=
  match authorization with
  | Some h =>
      if truthy (Some (JStr h)) then
        match split_sp h with
        | ty :: rest =>
            if bool_decide (ty = "Token") || bool_decide (ty = "Bearer")
            then head rest else None
        | [] => None
        end
      else None
  | None => None
  end.

(** The [user] of [authorize]: [if (token)] call [users.resolveToken]; any
    error of the call is caught by the empty [catch (err) {}]. *)
Definition authenticate (now : Z) (authorization : option string) (w : world)
  : option (doc * string) * world :=
  match extract_token authorization with
  | Some token =>
      if truthy (Some (JStr token)) then
        match resolveToken_call now token w with
        | (inr (Some u), w') => (Some (u, token), w')
        | (_, w') => (None, w')
        end
      else (None, w)
  | None => (None, w)
  end.

(** What [authorize] writes into [ctx.meta] when a user resolved. *)
Definition attach (r : option (doc * string)) : meta :=
  match r with
  | Some (u, token) => mkMeta (Some (pick principal_fields u)) (Some token) (u !! "_id")
  | None => empty_meta
  end.

(** [authorize(ctx, route, req)] at time [now]: [auth] is
    [req.$action.auth]. *)
Definition authorize (now : Z) (auth : option string) (authorization : option string) (w : world)
  : (error + meta) * world :=
  let '(user, w') := authenticate now authorization w in
  if bool_decide (auth = Some "required") && negb (bool_decide (is_Some user))
  then (inl unauthorized, w')
  else (inr (attach user), w').

(** The gateway's dispatch: [authorize] runs first; when it throws, the
    error is the response and the action is never called. *)
Definition dispatch {A} (now : Z) (auth : option string) (authorization : option string) (w : world)
  (handler : meta -> world -> (error + A) * world) : (error + A) * world :=
  match authorize now auth authorization w with
  | (inl e, w') => (inl e, w')
  | (inr m, w') => handler m w'
  end.

(** ** Parameter and entity validation (fastest-validator) *)

(** The phone-number pattern [/(84|0[3|5|7|8|9])+([0-9]{8})\b/]. *)
Variable phone_pattern : string -> bool.

Inductive vtype := TString | TBoolean | TAny.

Record rule := mkRule { r_type : vtype; r_min : option nat; r_pattern : bool; r_optional : bool }.

Definition str_rule : rule := mkRule TString None false false.
Definition opt_str_rule : rule := mkRule TString None false true.
Definition phone_rule : rule := mkRule TString None true false.
Definition any_rule : rule := mkRule TAny None false false.

(** One field against its rule: [undefined] and [null] pass only an optional
    rule; a string must be long enough and match the pattern; [any] takes
    every other value. *)
Definition check_rule (r : rule) (v : option jsval) : bool :=
  match v with
  | None | Some JNull => r_optional r
  | Some x =>
      match r_type r, x with
      | TString, JStr str =>
          match r_min r with Some m => Nat.leb m (String.length str) | None => true end
          && (if r_pattern r then phone_pattern str else true)
      | TBoolean, JBool _ => true
      | TAny, _ => true
      | _, _ => false
      end
  end.

(** The fields that fail their rule, in the schema's order. *)
Definition validate (schema : list (string * rule)) (d : doc) : list string :=
  map fst (List.filter (fun fr => negb (check_rule fr.2 (d !! fr.1))) schema).

Definition validation_error (fields : list string) : error :=
  mkError "ValidationError" 422 fields.

(** [create.params]. *)
Definition create_params : list (string * rule) :=
  [("phoneNumber", phone_rule); ("password", str_rule); ("fullname", str_rule);
   ("birthday", str_rule); ("gender", mkRule TBoolean None false false);
   ("inviteCode", opt_str_rule); ("city", str_rule); ("address", opt_str_rule);
   ("image", opt_str_rule)].

(** [settings.entityValidator], checked by [this.validateEntity(entity)]. *)
Definition entityValidator : list (string * rule) :=
  [("phoneNumber", phone_rule); ("password", mkRule TString (Some 6) false false);
   ("fullname", mkRule TString (Some 1) false false); ("birthday", str_rule);
   ("gender", mkRule TBoolean None false false); ("inviteCode", opt_str_rule);
   ("city", str_rule); ("address", opt_str_rule); ("image", opt_str_rule)].

(** [login.params]. *)
Definition login_params : list (string * rule) :=
  [("phoneNumber", str_rule); ("password", mkRule TString (Some 6) false false)].

(** [update.params] as the broker sees them: the service's optional fields,
    merged (moleculer's [defaultsDeep] of mixin actions) with the params of
    moleculer-db's own [update] action, [id: { type: "any" }], which is
    required. *)
Definition update_params : list (string * rule) :=
  [("password", opt_str_rule); ("fullname", opt_str_rule); ("birthday", opt_str_rule);
   ("gender", mkRule TBoolean None false true); ("inviteCode", opt_str_rule);
   ("city", opt_str_rule); ("address", opt_str_rule); ("image", opt_str_rule);
   ("id", any_rule)].

(** The validator middleware in front of an action with [params]: the
    handler runs only on parameters that pass. *)
Definition call_action {A} (schema : list (string * rule)) (params : doc) (w : world)
  (handler : doc -> world -> (error + A) * world) : (error + A) * world :=
  match validate schema params with
  | [] => handler params w
  | bad => (inl (validation_error bad), w)
  end.

(** ** The users service *)

(** [bcryptjs.hashSync(plain, rounds)], drawing a random salt. *)
Variable hashSync : nat -> string -> Z -> string.
(** [bcryptjs.compare(plain, hash)]. *)
Variable bcrypt_compare : string -> string -> bool.
(** [jwt.sign(payload, JWT_SECRET)], of the payload as JSON. *)
Variable jwt_sign : doc -> string.
(** [exp = new Date(today); exp.setDate(today.getDate() + 60)]: the instant
    (in ms) 60 calendar days after [now] in the process's local time zone. *)
Variable setDate60 : Z -> Z.

Definition set_opt (k : string) (v : option jsval) (d : doc) : doc :=
  match v with Some x => <[k := x]> d | None => d end.

(** [generateJWT(user)]: [{ id, phoneNumber, exp }], signed as JSON (an
    [undefined] property is left out). *)
Definition generateJWT (e : env) (user : doc) : string :=
  let exp := Z.div (setDate60 (env_now_ms e)) 1000 in
  jwt_sign (set_opt "id" (to_json <$> user !! "_id")
              (set_opt "phoneNumber" (to_json <$> user !! "phoneNumber") {[ "exp" := JNum exp ]})).

(** [transformEntity(user, withToken, token)]:
    [user.token = token || this.generateJWT(user)]. *)
Definition transformEntity (e : env) (user : option doc) (withToken : bool) (token : option string)
  : option doc :=
  match user with
  | Some u =>
      if withToken then
        let t := match token with
                 | Some t => if truthy (Some (JStr t)) then t else generateJWT e u
                 | None => generateJWT e u
                 end in
        Some (<["token" := JStr t]> u)
      else Some u
  | None => None
  end.

(** The Mongo adapter's [entityToObject(doc)]: an ObjectId [_id] becomes its
    hex string. *)
Definition entityToObject (d : doc) : doc :=
  match d !! "_id" with
  | Some (JOid h) => <["_id" := JStr h]> d
  | _ => d
  end.

(** moleculer-db [transformDocuments(ctx, {}, doc)]: the document as a plain
    object, filtered to [settings.fields]; [null] stays [null]. *)
Definition transformDocuments (d : option doc) : option doc :=
  (fun u => pick settings_fields (entityToObject u)) <$> d.

(** [create.handler]: validate the entity, refuse a stored phone number, hash
    the password, default the image, insert, and clear the cache. *)
Definition create_handler (e : env) (m : meta) (entity : doc) (w : world)
  : (error + option doc) * world :=
  match validate entityValidator entity with
  | (_ :: _) as bad => (inl (validation_error bad), w)
  | [] =>
      let found := if truthy (entity !! "phoneNumber")
                   then findOne_phone (default JNull (entity !! "phoneNumber")) (users w)
                   else inr None in
      match found with
      | inl err => (inl err, w)
      | inr (Some _) => (inl (client_error 422 ["phoneNumber"]), w)
      | inr None =>
          match entity !! "password" with
          | Some (JStr pw) =>
              let entity1 := <["password" := JStr (hashSync (env_salt e) pw 10)]> entity in
              let entity2 := <["image" := if truthy (entity !! "image")
                                           then default JNull (entity !! "image")
                                           else JNull]> entity1 in
              match insert entity2 (env_new_id e) (users w) with
              | inl err => (inl err, w)
              | inr (doc, s') =>
                  (inr (transformEntity e (Some doc) true (meta_token m)), mkWorld s' (files w) [])
              end
          | _ => (inl (mkError "Error" 500 []), w)
          end
      end
  end.

Definition create (e : env) (m : meta) (params : doc) (w : world) : (error + option doc) * world :=
  call_action create_params params w (create_handler e m).

(** The entity [create] inserts: the request with its password hashed and
    its [image] defaulted to [null]. *)
Definition stored_entity (e : env) (params : doc) (pw : string) : doc :=
  <["image" := if truthy (params !! "image") then default JNull (params !! "image") else JNull]>
    (<["password" := JStr (hashSync (env_salt e) pw 10)]> params).

(** [login.handler]. *)
Definition login_handler (e : env) (m : meta) (params : doc) (w : world)
  : (error + option doc) * world :=
  match findOne_phone (default JNull (params !! "phoneNumber")) (users w) with
  | inl err => (inl err, w)
  | inr None => (inl (client_error 422 ["phoneNumber"]), w)
  | inr (Some user) =>
      match params !! "password", user !! "password" with
      | Some (JStr pw), Some (JStr h) =>
          if bcrypt_compare pw h then
            (inr (transformEntity e (transformDocuments (Some user)) true (meta_token m)), w)
          else (inl (client_error 422 ["password"]), w)
      | _, _ => (inl (mkError "Error" 500 []), w)
      end
  end.

Definition login (e : env) (m : meta) (params : doc) (w : world) : (error + option doc) * world :=
  call_action login_params params w (login_handler e m).

(** [ctx.meta.user._id]; reading it with no [ctx.meta.user] throws. *)
Definition meta_user_id (m : meta) : error + jsval :=
  match meta_user m with
  | Some u => inr (default JNull (u !! "_id"))
  | None => inl (mkError "TypeError" 500 [])
  end.

(** [me.handler]. *)
Definition me_handler (e : env) (m : meta) (w : world) : (error + option doc) * world :=
  match meta_user_id m with
  | inl err => (inl err, w)
  | inr id =>
      match getById id (users w) with
      | inl err => (inl err, w)
      | inr None => (inl (client_error 404 []), w)
      | inr (Some user) => (inr (transformEntity e (transformDocuments (Some user)) true (meta_token m)), w)
      end
  end.

(** The cacher's default TTL in seconds ([None]: entries do not expire), set
    in the broker's configuration. *)
Variable cacher_ttl : option Z.

(** The [users.me] action through the cacher ([cache: { keys: ["#userID"] }]):
    a live entry for [ctx.meta.userID] is returned without running the
    handler; otherwise the profile the handler returns is stored. *)
Definition me (e : env) (m : meta) (w : world) : (error + option doc) * world :=
  let key := CKUser (meta_userID m) in
  match cache_get key (env_now_ms e) (cache w) with
  | Some v => (inr (Some v), w)
  | None =>
      match me_handler e m w with
      | (inr (Some p), w') =>
          (inr (Some p), mkWorld (users w') (files w') (cache_set key p cacher_ttl (env_now_ms e) (cache w')))
      | r => r
      end
  end.

(** [update.handler]: [updateById(ctx.meta.user._id, { $set: ctx.params })],
    then [entityChanged]. *)
Definition update_handler (e : env) (m : meta) (entity : doc) (w : world)
  : (error + option doc) * world :=
  match meta_user_id m with
  | inl err => (inl err, w)
  | inr id =>
      match updateById id entity (users w) with
      | inl err => (inl err, w)
      | inr (d, s') =>
          (inr (transformEntity e (transformDocuments d) true (meta_token m)), mkWorld s' (files w) [])
      end
  end.

Definition update (e : env) (m : meta) (params : doc) (w : world) : (error + option doc) * world :=
  call_action update_params params w (update_handler e m).

(** [delete.handler]: [const id = ctx.params], the params object itself,
    given as its properties in order (for [DELETE /users/:id], the body's and
    the query's properties, then [id]). *)
Definition delete_handler (m : meta) (params : list (string * jsval)) (w : world)
  : (error + option doc) * world :=
  let id := JObj params in
  match getById id (users w) with
  | inl err => (inl err, w)
  | inr None => (inl (client_error 404 []), w)
  | inr (Some _) =>
      match removeById id (users w) with
      | inl err => (inl err, w)
      | inr (res, s') => (inr res, mkWorld s' (files w) [])
      end
  end.

(** ** Avatar upload and download *)

(** [path.join(dir, name)] and the [uploadDir] it is used with. *)
Variable path_join : string -> string -> string.
Variable uploadDir : string.

(** [randomName()]: ["unnamed_" + Date.now() + ".png"]. *)
Definition randomName (e : env) : string :=
  String.append "unnamed_" (String.append (pretty (env_now_ms e)) ".png").

(** How the multipart stream [ctx.params] ends: after its chunks, either at
    its end or with a transport error. *)
Inductive source :=
| SrcEnd (chunks : list string)
| SrcError (chunks : list string) (msg : string).

(** The events of the write stream [f] that [ctx.params.pipe(f)] produces.
    At the end of the source, [pipe] ends [f], which emits [finish] and then
    [close].  On a source error the handler's listener calls
    [f.destroy(err)]: a Node.js [fs.WriteStream] then emits [error] and,
    as [emitClose] defaults to true, [close]. *)
Inductive ws_event := EvWrite (c : string) | EvFinish | EvError | EvClose.

Definition ws_events (src : source) : list ws_event :=
  match src with
  | SrcEnd cs => map EvWrite cs ++ [EvFinish; EvClose]
  | SrcError cs _ => map EvWrite cs ++ [EvError; EvClose]
  end.

(** The effect of one event, with the listeners [uploadImage.handler]
    registers on [f]: on [close] the caller's [image] is set to [filePath]
    and the cache is cleared (a failing update is an unhandled rejection of
    the listener, and changes nothing); on [error] the file is unlinked. *)
Definition on_event (m : meta) (filePath : string) (ev : ws_event) (w : world) : world :=
  match ev with
  | EvWrite c =>
      mkWorld (users w)
        (<[filePath := String.append (default "" (files w !! filePath)) c]> (files w)) (cache w)
  | EvFinish => w
  | EvError => mkWorld (users w) (delete filePath (files w)) (cache w)
  | EvClose =>
      match meta_user_id m with
      | inr id =>
          match updateById id {[ "image" := JStr filePath ]} (users w) with
          | inr (_, s') => mkWorld s' (files w) []
          | inl _ => w
          end
      | inl _ => w
      end
  end.

Definition run_events (m : meta) (filePath : string) (evs : list ws_event) (w : world) : world :=
  fold_left (fun w ev => on_event m filePath ev w) evs w.

(** The path [uploadImage] writes to. *)
Definition upload_path (e : env) (filename : option string) : string :=
  path_join uploadDir (match filename with
                       | Some n => if truthy (Some (JStr n)) then n else randomName e
                       | None => randomName e
                       end).

(** [uploadImage.handler], run to the end of the stream: [createWriteStream]
    creates (or truncates) the file, then the stream's events take effect. *)
Definition uploadImage (e : env) (m : meta) (filename : option string) (src : source) (w : world)
  : (error + unit) * world :=
  let filePath := upload_path e filename in
  let w0 := mkWorld (users w) (<[filePath := ""]> (files w)) (cache w) in
  (inr tt, run_events m filePath (ws_events src) w0).

(** A read stream: the file's bytes, or an [error] event (ENOENT). *)
Inductive stream := SBytes (content : string) | SError (code : string).

(** A response: a stream with its [$responseType]. *)
Inductive response := RStream (content_type : string) (body : stream).

(** [fs.createReadStream(path)]: a non-string path throws a TypeError; a
    missing file gives a stream that fails with ENOENT. *)
Definition createReadStream (path : option jsval) (fs : gmap string string) : error + stream :=
  match path with
  | Some (JStr p) =>
      inr (match fs !! p with Some c => SBytes c | None => SError "ENOENT" end)
  | _ => inl (mkError "TypeError" 500 [])
  end.

(** The [getImage] action. *)
Definition getImage_action (m : meta) (w : world) : (error + response) * world :=
  match meta_user_id m with
  | inl err => (inl err, w)
  | inr id =>
      match getById id (users w) with
      | inl err => (inl err, w)
      | inr None => (inl (client_error 404 []), w)
      | inr (Some user) =>
          match createReadStream (user !! "image") (files w) with
          | inl err => (inl err, w)
          | inr st => (inr (RStream "image/png" st), w)
          end
      end
  end.

(** The [getImage(imagePath)] method, which no action calls: it checks that
    the file exists, but [NotFoundError] is not bound in the module, so the
    missing-file branch throws a ReferenceError. *)
Definition getImage_method (imagePath : string) (fs : gmap string string) : error + stream :=
  if bool_decide (is_Some (fs !! imagePath)) then createReadStream (Some (JStr imagePath)) fs
  else inl (mkError "ReferenceError" 500 []).
(** * Properties *)

(** ** [split] and [join] *)

Lemma append_String (ch : ascii) (s t : string) :
  String.append (String ch s) t = String ch (String.append s t).
Proof. reflexivity. Qed.

Lemma append_Empty (t : string) : String.append "" t = t.
Proof. reflexivity. Qed.

Lemma append_empty_r (s : string) : String.append s "" = s.
Proof. induction s as [|ch s IH]; [reflexivity|]. rewrite append_String. f_equal. exact IH. Qed.

Lemma split_sp_split_on (s : string) : split_sp s = split_on " " s.
Proof. induction s as [|ch rest IH]; simpl; [reflexivity|]. by rewrite IH. Qed.

Lemma split_on_nonempty (c : ascii) (s : string) : split_on c s <> [].
Proof.
  destruct s as [|ch rest]; simpl; [discriminate|].
  case_decide; [discriminate|]. destruct (split_on c rest); discriminate.
Qed.

Lemma join_with_cons_string (c ch : ascii) (w : string) (ws : list string) :
  join_with c (String ch w :: ws) = String ch (join_with c (w :: ws)).
Proof. destruct ws; reflexivity. Qed.

Lemma join_split (c : ascii) (s : string) : join_with c (split_on c s) = s.
Proof.
  induction s as [|ch rest IH]; [reflexivity|]. simpl.
  pose proof (split_on_nonempty c rest) as Hn.
  destruct (decide (ch = c)) as [Hc|Hc].
  - subst ch. rewrite bool_decide_true by reflexivity.
    destruct (split_on c rest) as [|w ws]; [congruence|].
    change (join_with c ("" :: w :: ws)) with (String.append "" (String c (join_with c (w :: ws)))).
    by rewrite append_Empty, IH.
  - rewrite bool_decide_false by exact Hc.
    destruct (split_on c rest) as [|w ws]; [congruence|].
    rewrite join_with_cons_string. by rewrite IH.
Qed.

Lemma split_on_pieces (c : ascii) (s : string) :
  Forall (fun w => has_char c w = false) (split_on c s).
Proof.
  induction s as [|ch rest IH]; simpl; [by constructor|].
  destruct (decide (ch = c)) as [Hc|Hc].
  - rewrite bool_decide_true by exact Hc. constructor; [reflexivity|exact IH].
  - rewrite bool_decide_false by exact Hc.
    destruct (split_on c rest) as [|w ws].
    + constructor; [|constructor]. simpl. by rewrite bool_decide_false.
    + inversion IH as [|? ? Hw Hws]; subst. constructor; [|exact Hws].
      simpl. rewrite bool_decide_false by exact Hc. exact Hw.
Qed.

Lemma split_on_no_char (c : ascii) (a : string) : has_char c a = false -> split_on c a = [a].
Proof.
  induction a as [|ch a IH]; simpl; [reflexivity|]. intros H.
  apply orb_false_iff in H as [H1 H2]. rewrite H1. by rewrite IH.
Qed.

Lemma split_on_app (c : ascii) (a b : string) :
  has_char c a = false -> split_on c (String.append a (String c b)) = a :: split_on c b.
Proof.
  induction a as [|ch a IH]; rewrite ?append_String, ?append_Empty; simpl; intros H.
  - by rewrite bool_decide_true.
  - apply orb_false_iff in H as [H1 H2]. rewrite H1. by rewrite IH.
Qed.

Lemma split_on_app_suffix (c : ascii) (a b : string) :
  exists l, l <> [] /\ split_on c (String.append a (String c b)) = (l ++ split_on c b)%list.
Proof.
  induction a as [|ch a IH]; rewrite ?append_String, ?append_Empty; simpl.
  - exists [""]. split; [discriminate|]. by rewrite bool_decide_true.
  - destruct IH as (l & Hl & Heq). rewrite Heq. destruct (decide (ch = c)) as [Hc|Hc].
    + rewrite bool_decide_true by exact Hc.
      exists ("" :: l). split; [discriminate|reflexivity].
    + rewrite bool_decide_false by exact Hc. destruct l as [|w l]; [congruence|].
      exists (String ch w :: l). split; [discriminate|reflexivity].
Qed.

(** ** Extras: the gateway *)

(** The token [authorize] takes from the header is exactly the second
    space-separated word after a ["Token"] or ["Bearer"] scheme; it never
    contains a space, and whatever follows it starts with a space. *)
Theorem extract_token_second_word (h t : string) :
  extract_token (Some h) = Some t <->
  exists ty rest, (ty = "Token" \/ ty = "Bearer") /\ has_char " " t = false
    /\ (rest = "" \/ exists r, rest = String " " r)
    /\ h = String.append ty (String " " (String.append t rest)).
Proof.
  split.
  - unfold extract_token. destruct (truthy (Some (JStr h))); [|discriminate].
    rewrite split_sp_split_on.
    pose proof (join_split " " h) as Hj. pose proof (split_on_pieces " " h) as Hp.
    destruct (split_on " " h) as [|ty l]; [discriminate|].
    destruct (bool_decide (ty = "Token") || bool_decide (ty = "Bearer")) eqn:Hb; [|discriminate].
    destruct l as [|t' l]; simpl; [discriminate|]. intros Heq. injection Heq as <-.
    apply Forall_cons in Hp as [_ Hp']. apply Forall_cons in Hp' as [Ht _].
    assert (Hty : ty = "Token" \/ ty = "Bearer")
      by (apply orb_true_iff in Hb as [Hb|Hb]; apply bool_decide_eq_true in Hb; auto).
    rewrite <- Hj. destruct l as [|w l].
    + exists ty, "". rewrite append_empty_r. repeat split; auto.
    + exists ty, (String " " (join_with " " (w :: l))). repeat split; eauto.
  - intros (ty & rest & Hty & Ht & Hrest & ->). unfold extract_token.
    assert (Hs : has_char " " ty = false) by (destruct Hty as [-> | ->]; reflexivity).
    assert (Htr : truthy (Some (JStr (String.append ty (String " " (String.append t rest))))) = true)
      by (destruct Hty as [-> | ->]; reflexivity).
    rewrite Htr, split_sp_split_on, split_on_app by exact Hs.
    assert (Hb : bool_decide (ty = "Token") || bool_decide (ty = "Bearer") = true)
      by (destruct Hty as [-> | ->]; reflexivity).
    rewrite Hb. destruct Hrest as [-> | [r ->]].
    + rewrite append_empty_r, split_on_no_char by exact Ht. reflexivity.
    + rewrite split_on_app by exact Ht. reflexivity.
Qed.


(** ** The collection: lookups and in-place replacement *)

Lemma find_first_Some (f : doc -> bool) (s : store) (pre : list doc) (x : doc) (post : list doc) :
  find_first f s = Some (pre, x, post) ->
  s = (pre ++ x :: post)%list /\ f x = true /\ Forall (fun d => f d = false) pre.
Proof.
  revert pre. induction s as [|d s IH]; simpl; intros pre H; [discriminate|].
  destruct (f d) eqn:Hf.
  - injection H as <- <- <-. auto.
  - destruct (find_first f s) as [[[pre' x'] post']|] eqn:Hs; [|discriminate].
    injection H as Hp Hx Hpo. subst.
    destruct (IH pre' eq_refl) as (-> & Hx & Hpre). auto.
Qed.

Lemma find_first_app (f : doc -> bool) (pre : list doc) (x : doc) (post : list doc) :
  Forall (fun d => f d = false) pre -> f x = true ->
  find_first f (pre ++ x :: post)%list = Some (pre, x, post).
Proof.
  intros Hpre Hx. induction Hpre as [|d pre Hd Hpre IH]; simpl.
  - rewrite Hx. reflexivity.
  - rewrite Hd, IH. reflexivity.
Qed.

Lemma find_first_None (f : doc -> bool) (s : store) :
  find_first f s = None <-> Forall (fun d => f d = false) s.
Proof using.
  induction s as [|d s IH]; simpl.
  - split; [constructor|reflexivity].
  - rewrite Forall_cons. destruct (f d).
    + split; [discriminate|]. intros [H _]. discriminate.
    + destruct (find_first f s) as [[[pre x] post]|].
      * split; [discriminate|]. intros [_ H]. apply IH in H. discriminate.
      * split; [intros _; split; [reflexivity|apply IH; reflexivity]|reflexivity].
Qed.

(** The document [getById] finds, with those before and after it. *)
Lemma getById_Some (id : jsval) (s : store) (d : doc) :
  getById id s = inr (Some d) ->
  is_operator_object (stringToObjectID id) = false
  /\ exists pre post,
       find_first (fun x => value_matches (stringToObjectID id) (x !! "_id")) s = Some (pre, d, post).
Proof.
  unfold getById, find_eq. destruct (is_operator_object _); [discriminate|].
  destruct (find_first _ s) as [[[pre x] post]|]; simpl; [|discriminate].
  intros H. injection H as <-. eauto.
Qed.

(** A document that keeps its [_id] is still the one [getById] finds. *)
Lemma getById_replace (id : jsval) (s : store) (pre post : list doc) (d d' : doc) :
  is_operator_object (stringToObjectID id) = false ->
  find_first (fun x => value_matches (stringToObjectID id) (x !! "_id")) s = Some (pre, d, post) ->
  d' !! "_id" = d !! "_id" ->
  getById id (pre ++ d' :: post)%list = inr (Some d').
Proof.
  intros Hop Hf Hid. apply find_first_Some in Hf as (_ & Hd & Hpre).
  unfold getById, find_eq. rewrite Hop, find_first_app.
  - reflexivity.
  - exact Hpre.
  - rewrite Hid. exact Hd.
Qed.

Lemma getById_None (id : jsval) (s : store) :
  getById id s = inr None ->
  is_operator_object (stringToObjectID id) = false
  /\ find_first (fun x => value_matches (stringToObjectID id) (x !! "_id")) s = None.
Proof.
  unfold getById, find_eq. destruct (is_operator_object _); [discriminate|].
  destruct (find_first _ s) as [[[pre x] post]|]; simpl; [discriminate|]. auto.
Qed.

(** ** [$set] *)

(** A field that no key of the update addresses keeps its value. *)
Lemma apply_set_frame (sets : list (string * jsval)) (d d' : doc) (k : string) :
  apply_set sets d = Some d' ->
  Forall (fun kv => head (split_on "." kv.1) <> Some k) sets ->
  d' !! k = d !! k.
Proof.
  revert d. induction sets as [|[k0 v0] rest IH]; simpl; intros d H Hf.
  - injection H as <-. reflexivity.
  - apply Forall_cons in Hf as [H0 Hf]. simpl in H0.
    destruct (split_on "." k0) as [|g segs] eqn:Hs; [exact (IH d H Hf)|].
    destruct (put_path segs v0 (d !! g)) as [x|]; simpl in H; [|discriminate].
    rewrite (IH _ H Hf). apply lookup_insert_ne. simpl in H0. congruence.
Qed.

(** A key without a dot sets its field to the given value, unless a later
    key addresses the same field. *)
Lemma apply_set_flat (sets : list (string * jsval)) (d d' : doc) (k : string) (v : jsval) :
  apply_set sets d = Some d' -> NoDup sets.*1 -> (k, v) ∈ sets -> split_on "." k = [k] ->
  Forall (fun kv => kv.1 <> k -> head (split_on "." kv.1) <> Some k) sets ->
  d' !! k = Some v.
Proof.
  revert d. induction sets as [|[k0 v0] rest IH]; simpl; intros d H Hnd Hin Hk Hf.
  - apply elem_of_nil in Hin. contradiction.
  - apply NoDup_cons in Hnd as [Hk0 Hnd]. apply Forall_cons in Hf as [_ Hf].
    apply elem_of_cons in Hin as [Hin | Hin].
    + injection Hin as Hk1 Hv1. subst k0 v0. rewrite Hk in H. simpl in H.
      rewrite (apply_set_frame rest _ d' k H).
      * apply lookup_insert_eq.
      * apply Forall_forall. intros [k1 v1] Hin1. rewrite Forall_forall in Hf.
        apply (Hf (k1, v1) Hin1). simpl. intros ->. apply Hk0.
        apply list_elem_of_fmap. exists (k, v1). auto.
    + destruct (split_on "." k0) as [|g segs]; [exact (IH d H Hnd Hin Hk Hf)|].
      destruct (put_path segs v0 (d !! g)) as [x|]; simpl in H; [|discriminate].
      exact (IH _ H Hnd Hin Hk Hf).
Qed.

Lemma conflict_free_In (ps : list (list string)) (p q : list string) :
  conflict_free ps = true -> p ∈ ps -> q ∈ ps -> p <> q -> is_prefix p q = false.
Proof.
  induction ps as [|a ps IH]; simpl; intros H Hp Hq Hne.
  - apply elem_of_nil in Hp. contradiction.
  - apply andb_true_iff in H as [Ha H]. rewrite forallb_forall in Ha.
    apply elem_of_cons in Hp as [Hp | Hp]; apply elem_of_cons in Hq as [Hq | Hq].
    + subst. contradiction.
    + subst a. apply list_elem_of_In in Hq. specialize (Ha q Hq).
      destruct (is_prefix p q); [discriminate|reflexivity].
    + subst a. apply list_elem_of_In in Hp. specialize (Ha p Hp).
      destruct (is_prefix p q); [|reflexivity]. rewrite orb_true_r in Ha. discriminate.
    + exact (IH H Hp Hq Hne).
Qed.

(** When the server accepts an update, no other key addresses the field
    that a key without a dot sets. *)
Lemma set_paths_flat (upd : doc) (k : string) (v : jsval) :
  set_paths_error upd = None -> upd !! k = Some v -> split_on "." k = [k] ->
  Forall (fun kv => kv.1 <> k -> head (split_on "." kv.1) <> Some k) (map_to_list upd).
Proof.
  unfold set_paths_error. intros H Hk Hsplit.
  destruct (existsb _ _); [discriminate|]. destruct (existsb _ _); [discriminate|].
  destruct (conflict_free _) eqn:Hc; [|discriminate].
  apply Forall_forall. intros [k1 v1] Hin Hne Hh. simpl in Hne, Hh.
  destruct (split_on "." k1) as [|g segs] eqn:Hs1; [discriminate|]. injection Hh as ->.
  assert (Hpq : [k] <> k :: segs).
  { intros Heq. apply Hne. rewrite <- (join_split "." k1), Hs1, <- Heq. reflexivity. }
  assert (Hpre : is_prefix [k] (k :: segs) = true)
    by (simpl; rewrite bool_decide_true by reflexivity; reflexivity).
  rewrite (conflict_free_In _ [k] (k :: segs) Hc) in Hpre; [discriminate| | |exact Hpq].
  - apply list_elem_of_In, in_map_iff. exists (k, v). split; [exact Hsplit|].
    apply list_elem_of_In, elem_of_map_to_list. exact Hk.
  - apply list_elem_of_In, in_map_iff. exists (k1, v1). split; [simpl; rewrite Hs1; reflexivity|].
    apply list_elem_of_In. exact Hin.
Qed.

Lemma updateById_cases (id : jsval) (upd : doc) (s : store) (pre post : list doc) (d : doc) :
  is_operator_object (stringToObjectID id) = false ->
  find_first (fun x => value_matches (stringToObjectID id) (x !! "_id")) s = Some (pre, d, post) ->
  (exists err, updateById id upd s = inl err)
  \/ (exists d', set_paths_error upd = None /\ apply_set (map_to_list upd) d = Some d'
        /\ d' !! "_id" = d !! "_id" /\ updateById id upd s = inr (Some d', (pre ++ d' :: post)%list)).
Proof.
  intros Hop Hf. unfold updateById. destruct (set_paths_error upd) as [err|] eqn:Hp; [left; eauto|].
  unfold find_eq. rewrite Hop, Hf.
  destruct (apply_set (map_to_list upd) d) as [d'|] eqn:Ha; [|left; eauto].
  destruct (decide (d' !! "_id" = d !! "_id")) as [Hid | Hid].
  - rewrite bool_decide_true by exact Hid. right. exists d'. auto.
  - rewrite bool_decide_false by exact Hid. left. eauto.
Qed.

Lemma updateById_missing (id : jsval) (upd : doc) (s : store) :
  is_operator_object (stringToObjectID id) = false ->
  find_first (fun x => value_matches (stringToObjectID id) (x !! "_id")) s = None ->
  set_paths_error upd = None ->
  updateById id upd s = inr (None, s).
Proof. intros Hop Hf Hp. unfold updateById, find_eq. rewrite Hp, Hop, Hf. reflexivity. Qed.

(** Setting the [image] of the found document. *)
Lemma updateById_image (id : jsval) (fp : string) (s : store) (pre post : list doc) (d : doc) :
  is_operator_object (stringToObjectID id) = false ->
  find_first (fun x => value_matches (stringToObjectID id) (x !! "_id")) s = Some (pre, d, post) ->
  updateById id {[ "image" := JStr fp ]} s
  = inr (Some (<["image" := JStr fp]> d), (pre ++ <["image" := JStr fp]> d :: post)%list).
Proof.
  intros Hop Hf.
  destruct (updateById_cases id {[ "image" := JStr fp ]} s pre post d Hop Hf)
    as [[err Herr] | (d' & _ & Ha & _ & ->)].
  - revert Herr. unfold updateById.
    replace (set_paths_error {[ "image" := JStr fp ]}) with (@None error) by (vm_compute; reflexivity).
    unfold find_eq. rewrite Hop, Hf. rewrite map_to_list_singleton. simpl.
    rewrite lookup_insert_ne by discriminate. rewrite bool_decide_true by reflexivity. discriminate.
  - rewrite map_to_list_singleton in Ha. simpl in Ha. injection Ha as <-. reflexivity.
Qed.

(** ** The cacher *)

Lemma cache_get_set_eq (k : cache_key) (v : doc) (ttl : option Z) (now now' : Z)
    (c : list (cache_key * cached)) :
  cache_get k now' (cache_set k v ttl now c)
  = match ttl with
    | Some t => if Z.ltb (now + t * 1000) now' then None else Some v
    | None => Some v
    end.
Proof.
  unfold cache_get, cache_set. simpl. rewrite bool_decide_true by reflexivity.
  destruct ttl; reflexivity.
Qed.

(** ** Authentication *)

Lemma truthy_str (t : string) : truthy (Some (JStr t)) = true <-> t <> "".
Proof.
  simpl. destruct (decide (t = "")) as [-> | Hne].
  - rewrite bool_decide_true by reflexivity. split; [discriminate|]. intros H. contradiction.
  - rewrite bool_decide_false by exact Hne. split; auto.
Qed.

Lemma authenticate_None (now : Z) (hdr : option string) (w : world) :
  fst (authenticate now hdr w) = None -> authenticate now hdr w = (None, w).
Proof.
  unfold authenticate. destruct (extract_token hdr) as [tok|]; [|reflexivity].
  destruct (truthy (Some (JStr tok))); [|reflexivity].
  unfold resolveToken_call. destruct (cache_get _ _ _); [discriminate|].
  destruct (resolveToken now tok (users w)) as [err|[u|]]; simpl; congruence.
Qed.

Lemma authenticate_Some (now : Z) (hdr : option string) (w w' : world) (u : doc) (t : string) :
  authenticate now hdr w = (Some (u, t), w') ->
  extract_token hdr = Some t /\ t <> ""
  /\ ((cache_get (CKToken t) now (cache w) = Some u /\ w' = w)
      \/ (cache_get (CKToken t) now (cache w) = None /\ resolveToken now t (users w) = inr (Some u)
          /\ w' = mkWorld (users w) (files w) (cache_set (CKToken t) u (Some 3600%Z) now (cache w)))).
Proof.
  unfold authenticate. destruct (extract_token hdr) as [tok|]; [|discriminate].
  destruct (truthy (Some (JStr tok))) eqn:Ht; [|discriminate]. apply truthy_str in Ht.
  unfold resolveToken_call. destruct (cache_get (CKToken tok) now (cache w)) as [u'|] eqn:Hc.
  - intros H. injection H as <- <- <-. auto.
  - destruct (resolveToken now tok (users w)) as [err|[u'|]] eqn:Hr; try discriminate.
    intros H. injection H as <- <- <-. auto 10.
Qed.

Lemma resolveToken_Some (now : Z) (t : string) (s : store) (u : doc) :
  resolveToken now t s = inr (Some u) <->
  exists decoded id, jwt_verify now t = inr decoded /\ decoded !! "id" = Some id
    /\ truthy (Some id) = true /\ getById id s = inr (Some u).
Proof.
  unfold resolveToken. split.
  - destruct (jwt_verify now t) as [|decoded]; [discriminate|].
    destruct (decoded !! "id") as [id|] eqn:Hid; [|simpl; intros H; inversion H].
    destruct (truthy (Some id)) eqn:Htr; [|intros H; inversion H]. intros Hg. eauto 10.
  - intros (decoded & id & Hv & Hid & Htr & Hg). rewrite Hv, Hid, Htr. exact Hg.
Qed.

(** A request authenticates as [u] with token [t] exactly when the header
    carries the non-empty token [t] (after ["Token"] or ["Bearer"]) and
    either the cacher holds a live entry for [t], which is [u], or there is
    none, the token verifies, its payload has a truthy [id], and [getById]
    finds [u] by that id.  The principal is then attached under every
    policy, as the record restricted to the nine picked fields (no [image],
    no [token]), with the token and the record's [_id]; the collection and
    the files are untouched, and a user the handler resolved stays cached
    for [t] during the following hour. *)
Theorem authorize_valid_token (now : Z) (pol hdr : option string) (w : world) (u : doc) (t : string) :
  (fst (authenticate now hdr w) = Some (u, t) <->
     extract_token hdr = Some t /\ t <> ""
     /\ (cache_get (CKToken t) now (cache w) = Some u
         \/ (cache_get (CKToken t) now (cache w) = None
             /\ exists decoded id, jwt_verify now t = inr decoded /\ decoded !! "id" = Some id
                  /\ truthy (Some id) = true /\ getById id (users w) = inr (Some u))))
  /\ (fst (authenticate now hdr w) = Some (u, t) ->
      fst (authorize now pol hdr w) = inr (mkMeta (Some (pick principal_fields u)) (Some t) (u !! "_id"))
      /\ (forall k, k ∉ principal_fields -> pick principal_fields u !! k = None)
      /\ users (snd (authorize now pol hdr w)) = users w
      /\ files (snd (authorize now pol hdr w)) = files w
      /\ (cache_get (CKToken t) now (cache w) = None ->
          forall now', (now <= now' <= now + 3600000)%Z ->
          cache_get (CKToken t) now' (cache (snd (authorize now pol hdr w))) = Some u)).
Proof.
  split; [split|].
  - destruct (authenticate now hdr w) as [a w'] eqn:Ha. simpl. intros ->.
    destruct (authenticate_Some now hdr w w' u t Ha)
      as (He & Hne & [[Hc _] | (Hc & Hr & _)]); split; auto; split; auto.
    right. split; [exact Hc|]. apply resolveToken_Some. exact Hr.
  - intros (He & Hne & Hc). unfold authenticate. rewrite He.
    rewrite (proj2 (truthy_str t) Hne). unfold resolveToken_call.
    destruct Hc as [Hc | [Hc Hr]]; rewrite Hc; [reflexivity|].
    apply resolveToken_Some in Hr. rewrite Hr. reflexivity.
  - intros Ha. unfold authorize.
    destruct (authenticate now hdr w) as [a w'] eqn:Ha'. simpl in Ha. subst a.
    rewrite (bool_decide_true (is_Some _)) by eauto. rewrite andb_false_r. simpl.
    destruct (authenticate_Some now hdr w w' u t Ha') as (_ & _ & [[Hc ->] | (Hc & _ & ->)]).
    + split; [reflexivity|]. split; [|split; [reflexivity|split; [reflexivity|]]].
      * intros k Hk. unfold pick. rewrite map_lookup_filter.
        destruct (u !! k); simpl; [|reflexivity]. rewrite option_guard_False by exact Hk. reflexivity.
      * rewrite Hc. discriminate.
    + split; [reflexivity|]. split; [|split; [reflexivity|split; [reflexivity|]]].
      * intros k Hk. unfold pick. rewrite map_lookup_filter.
        destruct (u !! k); simpl; [|reflexivity]. rewrite option_guard_False by exact Hk. reflexivity.
      * intros _ now' Hnow. simpl. rewrite cache_get_set_eq.
        destruct (Z.ltb_spec (now + 3600 * 1000) now'); [lia|reflexivity].
Qed.

(** C6: under the [required] policy [authorize] throws [Unauthorized]
    exactly when no principal resolved; then the gateway answers with that
    error, whatever the handler, and the world is left as it was; a failing
    [users.resolveToken] call is caught and yields the anonymous outcome,
    again leaving the world as it was; and [authorize] throws nothing but
    [Unauthorized], only under [required]. *)
Theorem required_gate_rejects_exactly_anonymous :
  forall (now : Z) (hdr : option string) (w : world),
    (fst (authorize now (Some "required") hdr w) = inl unauthorized
       <-> fst (authenticate now hdr w) = None)
    /\ (forall (A : Type) (handler : meta -> world -> (error + A) * world),
          fst (authenticate now hdr w) = None ->
          dispatch now (Some "required") hdr w handler = (inl unauthorized, w))
    /\ (forall (token : string) (err : error),
          extract_token hdr = Some token -> fst (resolveToken_call now token w) = inl err ->
          authenticate now hdr w = (None, w))
    /\ (forall (pol : option string) (e : error),
          fst (authorize now pol hdr w) = inl e -> e = unauthorized /\ pol = Some "required").
Proof.
  intros now hdr w. split; [|split; [|split]].
  - unfold authorize. destruct (authenticate now hdr w) as [[p|] w']; simpl.
    + split; [destruct p; discriminate | discriminate].
    + split; reflexivity.
  - intros A handler H. apply authenticate_None in H.
    unfold dispatch, authorize. rewrite H. reflexivity.
  - intros token err Htok Hres. unfold authenticate. rewrite Htok.
    destruct (truthy (Some (JStr token))); [|reflexivity].
    revert Hres. unfold resolveToken_call. destruct (cache_get _ _ _); [discriminate|].
    destruct (resolveToken now token (users w)) as [e|[u|]]; simpl; try discriminate. reflexivity.
  - intros pol e. unfold authorize. destruct (authenticate now hdr w) as [user w'].
    destruct (bool_decide (pol = Some "required")) eqn:Hp; simpl; [|discriminate].
    apply bool_decide_eq_true in Hp.
    destruct (negb _); simpl; [|discriminate]. intros Heq. injection Heq as <-. auto.
Qed.

(** C7: [authenticate] resolves to nothing, and changes nothing, when the
    [Authorization] header is absent, when its first space-separated word is
    neither ["Token"] nor ["Bearer"], when no second word follows, when the
    second word is empty, or when the token has no live cache entry,
    verifies, and its [id] names no stored user.  A live cache entry for the
    token resolves to the cached user without any verification. *)
Theorem authenticate_anonymous_cases :
  forall (now : Z) (hdr : option string) (w : world),
    ((hdr = None
      \/ (exists h ty rest, hdr = Some h /\ split_sp h = ty :: rest /\ ty <> "Token" /\ ty <> "Bearer")
      \/ (exists h ty, hdr = Some h /\ split_sp h = [ty])
      \/ (exists h ty rest, hdr = Some h /\ split_sp h = ty :: "" :: rest)
      \/ (exists token decoded id, extract_token hdr = Some token
            /\ cache_get (CKToken token) now (cache w) = None
            /\ jwt_verify now token = inr decoded /\ decoded !! "id" = Some id
            /\ getById id (users w) = inr None))
     -> authenticate now hdr w = (None, w))
    /\ (forall (token : string) (u : doc),
          extract_token hdr = Some token -> token <> "" ->
          cache_get (CKToken token) now (cache w) = Some u ->
          authenticate now hdr w = (Some (u, token), w)).
Proof.
  intros now hdr w. split.
  - intros [Hnone | [(h & ty & rest & -> & Hsp & Ht & Hb)
                    | [(h & ty & -> & Hsp) | [(h & ty & rest & -> & Hsp)
                    | (token & decoded & id & Htok & Hc & Hv & Hid & Hg)]]]].
    + subst hdr. reflexivity.
    + unfold authenticate, extract_token. rewrite Hsp.
      rewrite (bool_decide_false (ty = "Token")) by exact Ht.
      rewrite (bool_decide_false (ty = "Bearer")) by exact Hb.
      destruct (truthy (Some (JStr h))); reflexivity.
    + unfold authenticate, extract_token. rewrite Hsp.
      destruct (truthy (Some (JStr h))); [|reflexivity].
      destruct (bool_decide (ty = "Token") || bool_decide (ty = "Bearer")); reflexivity.
    + unfold authenticate, extract_token. rewrite Hsp.
      destruct (truthy (Some (JStr h))); [|reflexivity].
      destruct (bool_decide (ty = "Token") || bool_decide (ty = "Bearer")); reflexivity.
    + unfold authenticate. rewrite Htok.
      destruct (truthy (Some (JStr token))); [|reflexivity].
      unfold resolveToken_call. rewrite Hc. unfold resolveToken. rewrite Hv, Hid.
      destruct (truthy (Some id)); [rewrite Hg|]; reflexivity.
  - intros token u Htok Hne Hc. unfold authenticate. rewrite Htok.
    rewrite (proj2 (truthy_str token) Hne). unfold resolveToken_call. rewrite Hc. reflexivity.
Qed.

(** ** Validation *)

Lemma validate_nil_iff (schema : list (string * rule)) (d : doc) :
  validate schema d = [] <-> Forall (fun fr => check_rule fr.2 (d !! fr.1) = true) schema.
Proof using phone_pattern.
  unfold validate. induction schema as [|[f r] schema IH]; simpl.
  - split; [constructor|reflexivity].
  - rewrite Forall_cons. simpl. destruct (check_rule r (d !! f)); simpl.
    + rewrite IH. split; [intros H; split; [reflexivity|exact H] | intros [_ H]; exact H].
    + split; [discriminate|]. intros [H _]. discriminate.
Qed.

Lemma check_str_rule (v : option jsval) :
  check_rule str_rule v = true <-> exists x, v = Some (JStr x).
Proof.
  split.
  - destruct v as [[| | |x| |]|]; simpl; try discriminate. eauto.
  - intros [x ->]. reflexivity.
Qed.

Lemma check_min_rule (n : nat) (v : option jsval) :
  check_rule (mkRule TString (Some n) false false) v = true
  <-> exists x, v = Some (JStr x) /\ n <= String.length x.
Proof.
  split.
  - destruct v as [[| | |x| |]|]; simpl; try discriminate.
    rewrite andb_true_r. intros H. apply Nat.leb_le in H. eauto.
  - intros (x & -> & Hx). simpl. rewrite andb_true_r. apply Nat.leb_le. exact Hx.
Qed.

Lemma check_opt_str_rule (v : option jsval) :
  check_rule opt_str_rule v = true <-> v = None \/ v = Some JNull \/ exists x, v = Some (JStr x).
Proof.
  split.
  - destruct v as [[| | |x| |]|]; simpl; try discriminate; eauto.
  - intros [-> | [-> | [x ->]]]; reflexivity.
Qed.

(** A login request passes [login.params] exactly when its [phoneNumber] is
    a string and its [password] a string of at least 6 characters; other
    properties of the request are not looked at. *)
Theorem login_params_check (p : doc) :
  validate login_params p = [] <->
  (exists ph, p !! "phoneNumber" = Some (JStr ph))
  /\ (exists pw, p !! "password" = Some (JStr pw) /\ 6 <= String.length pw).
Proof using phone_pattern.
  unfold login_params. rewrite validate_nil_iff, !Forall_cons. simpl.
  rewrite check_str_rule, check_min_rule. split.
  - intros (H1 & H2 & _). auto.
  - intros (H1 & H2). auto.
Qed.

(** ** Profiles *)

Lemma pick_lookup (keys : list string) (d : doc) (k : string) :
  k ∈ keys -> pick keys d !! k = d !! k.
Proof.
  intros Hk. unfold pick. rewrite map_lookup_filter.
  destruct (d !! k) as [v|]; simpl; [|reflexivity].
  rewrite option_guard_True by exact Hk. reflexivity.
Qed.

Lemma entityToObject_ne (u : doc) (k : string) : k <> "_id" -> entityToObject u !! k = u !! k.
Proof.
  intros Hk. unfold entityToObject.
  destruct (u !! "_id") as [[| | | |h|]|]; try reflexivity.
  apply lookup_insert_ne. congruence.
Qed.

Lemma transformEntity_lookup (e : env) (u : doc) (t : option string) :
  exists u', transformEntity e (Some u) true t = Some u'
             /\ forall k, k <> "token" -> u' !! k = u !! k.
Proof.
  eexists. split; [reflexivity|].
  intros k Hk. rewrite lookup_insert_ne by congruence. reflexivity.
Qed.

(** The token [transformEntity] adds: the request's own when it is a
    non-empty string, else a freshly issued one. *)
Lemma transformEntity_token (e : env) (u : doc) (t : option string) :
  (forall t0, t = Some t0 -> t0 <> "" -> transformEntity e (Some u) true t = Some (<["token" := JStr t0]> u))
  /\ (t = None -> transformEntity e (Some u) true t = Some (<["token" := JStr (generateJWT e u)]> u)).
Proof.
  split.
  - intros t0 -> Hne. unfold transformEntity. rewrite (proj2 (truthy_str t0) Hne). reflexivity.
  - intros ->. reflexivity.
Qed.

(** ** Register *)

Lemma insert_ok (entity : doc) (nid : string) (s : store) (d : doc) (s' : store) :
  insert entity nid s = inr (d, s') ->
  s' = (s ++ [d])%list
  /\ exists idv, d = <["_id" := idv]> entity
       /\ (((entity !! "_id" = None \/ entity !! "_id" = Some JNull) /\ idv = JOid nid)
           \/ (entity !! "_id" = Some idv /\ idv <> JNull))
       /\ Forall (fun d0 => d0 !! "_id" <> Some idv) s.
Proof.
  unfold insert.
  set (idv := match entity !! "_id" with None | Some JNull => JOid nid | Some v => v end).
  destruct (dollar_field idv); [discriminate|].
  destruct (existsb _ s) eqn:He; [discriminate|].
  intros H. injection H as <- <-. split; [reflexivity|]. exists idv. split; [reflexivity|]. split.
  - unfold idv. destruct (entity !! "_id") as [[]|]; auto; right; split; auto; discriminate.
  - apply Forall_forall. intros d0 Hin Hd0.
    assert (Hx : existsb (fun d' => bool_decide (d' !! "_id" = Some idv)) s = true).
    { apply existsb_exists. exists d0. split; [apply list_elem_of_In; exact Hin|]. apply bool_decide_true. exact Hd0. }
    rewrite Hx in He. discriminate.
Qed.

Lemma create_ok_inv (e : env) (m : meta) (params : doc) (w : world) (r : option doc) (w' : world) :
  create e m params w = (inr r, w') ->
  validate create_params params = [] /\ validate entityValidator params = []
  /\ (truthy (params !! "phoneNumber") = true ->
      findOne_phone (default JNull (params !! "phoneNumber")) (users w) = inr None)
  /\ exists pw d, params !! "password" = Some (JStr pw)
     /\ insert (stored_entity e params pw) (env_new_id e) (users w) = inr (d, (users w ++ [d])%list)
     /\ r = transformEntity e (Some d) true (meta_token m)
     /\ w' = mkWorld (users w ++ [d]) (files w) [].
Proof.
  unfold create, call_action. destruct (validate create_params params); [|discriminate].
  unfold create_handler. destruct (validate entityValidator params); [|discriminate].
  destruct (if truthy (params !! "phoneNumber") then _ else inr None) as [err|[u|]] eqn:Hnf;
    try discriminate.
  intros Hc. split; [reflexivity|]. split; [reflexivity|]. split.
  - intros Ht. rewrite Ht in Hnf. exact Hnf.
  - destruct (params !! "password") as [[| | |pw| |]|]; try discriminate.
    fold (stored_entity e params pw) in Hc.
    destruct (insert (stored_entity e params pw) (env_new_id e) (users w)) as [err|[d s']] eqn:Hi;
      [discriminate|].
    injection Hc as <- <-. destruct (insert_ok _ _ _ _ _ Hi) as [-> _].
    exists pw, d. auto.
Qed.

Lemma stored_entity_lookup (e : env) (params : doc) (pw : string) (k : string) :
  k <> "image" -> k <> "password" -> stored_entity e params pw !! k = params !! k.
Proof. intros H1 H2. unfold stored_entity. rewrite !lookup_insert_ne by congruence. reflexivity. Qed.

(** A successful registration had a [phoneNumber] string that the phone
    pattern accepts, a [password] string of at least 6 characters, a
    non-empty [fullname] string, [birthday] and [city] strings and a boolean
    [gender]. *)
Theorem create_success_requires (e : env) (m : meta) (params : doc) (w : world)
    (r : option doc) (w' : world) :
  create e m params w = (inr r, w') ->
  (exists ph, params !! "phoneNumber" = Some (JStr ph) /\ phone_pattern ph = true)
  /\ (exists pw, params !! "password" = Some (JStr pw) /\ 6 <= String.length pw)
  /\ (exists n, params !! "fullname" = Some (JStr n) /\ n <> "")
  /\ (exists b, params !! "birthday" = Some (JStr b))
  /\ (exists g, params !! "gender" = Some (JBool g))
  /\ (exists c, params !! "city" = Some (JStr c)).
Proof.
  intros Hc. destruct (create_ok_inv e m params w r w' Hc) as (_ & Hv & _).
  apply validate_nil_iff in Hv. unfold entityValidator in Hv.
  rewrite !Forall_cons in Hv. simpl in Hv.
  destruct Hv as (Hph & Hpw & Hfn & Hb & Hg & _ & Hc' & _).
  apply check_min_rule in Hpw. apply check_min_rule in Hfn.
  apply check_str_rule in Hb. apply check_str_rule in Hc'.
  split; [|split; [exact Hpw|split; [|split; [exact Hb|split; [|exact Hc']]]]].
  - destruct (params !! "phoneNumber") as [[| | |ph| |]|]; simpl in Hph; try discriminate.
    eauto.
  - destruct Hfn as (n & Hn & Hl). exists n. split; [exact Hn|]. intros ->. simpl in Hl. lia.
  - destruct (params !! "gender") as [[|g| | | |]|]; simpl in Hg; try discriminate. eauto.
Qed.

(** A successful registration appends one record to the collection, touches
    no file and clears the cache.  Its [_id] is the one the request supplied
    (any value but [null]), else a fresh ObjectId, and no record stored
    before had that [_id]; its [image] is the supplied non-empty image path,
    or [null] when none (or an empty one) was given; every other property
    except [password] is the request's own. *)
Theorem create_stored_record (e : env) (m : meta) (params : doc) (w : world)
    (r : option doc) (w' : world) :
  create e m params w = (inr r, w') ->
  files w' = files w /\ cache w' = []
  /\ exists d, users w' = (users w ++ [d])%list
     /\ (((params !! "_id" = None \/ params !! "_id" = Some JNull)
          /\ d !! "_id" = Some (JOid (env_new_id e)))
         \/ (params !! "_id" <> None /\ params !! "_id" <> Some JNull /\ d !! "_id" = params !! "_id"))
     /\ Forall (fun d0 => d0 !! "_id" <> d !! "_id") (users w)
     /\ ((exists i, i <> "" /\ params !! "image" = Some (JStr i) /\ d !! "image" = Some (JStr i))
         \/ ((params !! "image" = None \/ params !! "image" = Some JNull
              \/ params !! "image" = Some (JStr "")) /\ d !! "image" = Some JNull))
     /\ (forall k, k <> "_id" -> k <> "image" -> k <> "password" -> d !! k = params !! k).
Proof.
  intros Hc. destruct (create_ok_inv e m params w r w' Hc) as (Hv & _ & _ & pw & d & _ & Hi & _ & ->).
  destruct (insert_ok _ _ _ _ _ Hi) as (_ & idv & -> & Hidv & Hfresh).
  rewrite (stored_entity_lookup e params pw "_id") in Hidv by discriminate.
  split; [reflexivity|]. split; [reflexivity|]. eexists. split; [reflexivity|].
  rewrite lookup_insert_eq. split; [|split; [exact Hfresh|split]].
  - destruct Hidv as [[Hn ->] | [Hs Hnn]]; [left; auto|right].
    rewrite Hs. split; [discriminate|]. split; [congruence|reflexivity].
  - rewrite lookup_insert_ne by discriminate. unfold stored_entity. rewrite lookup_insert_eq.
    apply validate_nil_iff in Hv. unfold create_params in Hv. rewrite !Forall_cons in Hv.
    destruct Hv as (_ & _ & _ & _ & _ & _ & _ & _ & Hi' & _). simpl in Hi'.
    apply check_opt_str_rule in Hi' as [Hi' | [Hi' | [i Hi']]]; rewrite Hi'.
    + right. auto.
    + right. auto.
    + destruct (decide (i = "")) as [-> | Hne].
      * right. auto.
      * left. exists i. split; [exact Hne|]. split; [reflexivity|]. simpl.
        rewrite bool_decide_false by exact Hne. reflexivity.
  - intros k H1 H2 H3. rewrite lookup_insert_ne by congruence. apply stored_entity_lookup; assumption.
Qed.

(** C8: a registration request that fails the action's parameter check, or
    then the entity validator, fails with a 422 error citing the invalid
    fields and changes nothing.  For one that passes both, a phone number
    already stored makes [create] fail with a 422 error citing [phoneNumber]
    and leaves the world as it was.  A successful [create] appends one record
    whose [password] is the hasher's digest of the supplied plaintext, and
    answers with that record plus a token: the request's own token when it
    carries a non-empty one, a token issued for the new record when it
    carries none. *)
Theorem register_duplicate_or_hashed :
  forall (e : env) (m : meta) (params : doc) (w : world),
    (validate create_params params <> [] ->
       create e m params w = (inl (validation_error (validate create_params params)), w))
    /\ (validate create_params params = [] -> validate entityValidator params <> [] ->
       create e m params w = (inl (validation_error (validate entityValidator params)), w))
    /\ (validate create_params params = [] -> validate entityValidator params = [] ->
        forall (p : string) (u : doc),
        params !! "phoneNumber" = Some (JStr p) -> p <> "" ->
        findOne_phone (JStr p) (users w) = inr (Some u) ->
        create e m params w = (inl (client_error 422 ["phoneNumber"]), w))
    /\ (forall (r : option doc) (w' : world),
        create e m params w = (inr r, w') ->
        exists pw d, params !! "password" = Some (JStr pw)
          /\ users w' = (users w ++ [d])%list
          /\ d !! "password" = Some (JStr (hashSync (env_salt e) pw 10))
          /\ r = transformEntity e (Some d) true (meta_token m)
          /\ (forall t0, meta_token m = Some t0 -> t0 <> "" -> r = Some (<["token" := JStr t0]> d))
          /\ (meta_token m = None -> r = Some (<["token" := JStr (generateJWT e d)]> d))).
Proof.
  intros e m params w. split; [|split; [|split]].
  - unfold create, call_action. destruct (validate create_params params); [contradiction|reflexivity].
  - intros H1. unfold create, call_action. rewrite H1. unfold create_handler.
    destruct (validate entityValidator params); [contradiction|reflexivity].
  - intros H1 H2 p u Hp Hne Hu. unfold create, call_action. rewrite H1.
    unfold create_handler. rewrite H2, Hp. rewrite (proj2 (truthy_str p) Hne). simpl default.
    rewrite Hu. reflexivity.
  - intros r w' Hc. destruct (create_ok_inv e m params w r w' Hc) as (_ & _ & _ & pw & d & Hpw & Hi & -> & ->).
    destruct (insert_ok _ _ _ _ _ Hi) as (_ & idv & -> & _).
    exists pw. eexists. split; [exact Hpw|]. split; [reflexivity|]. split.
    + rewrite lookup_insert_ne by discriminate. unfold stored_entity.
      rewrite lookup_insert_ne by discriminate. apply lookup_insert_eq.
    + split; [reflexivity|]. apply transformEntity_token.
Qed.

(** C9: a login request that fails the action's parameter check fails with
    a 422 error citing the invalid fields.  For one that passes it (a phone
    number string and a password string of at least 6 characters): an
    unknown phone number fails with 422 citing [phoneNumber]; a password the
    hash does not verify fails with 422 citing [password]; otherwise the
    answer is the profile plus a token, the request's own token when it
    carries one, else a freshly issued one.  The world never changes. *)
Theorem login_outcomes :
  forall (e : env) (m : meta) (params : doc) (w : world),
    (validate login_params params <> [] ->
       login e m params w = (inl (validation_error (validate login_params params)), w))
    /\ (validate login_params params = [] ->
        findOne_phone (default JNull (params !! "phoneNumber")) (users w) = inr None ->
        login e m params w = (inl (client_error 422 ["phoneNumber"]), w))
    /\ (validate login_params params = [] ->
        forall (u : doc) (pw h : string),
          findOne_phone (default JNull (params !! "phoneNumber")) (users w) = inr (Some u) ->
          params !! "password" = Some (JStr pw) -> u !! "password" = Some (JStr h) ->
          bcrypt_compare pw h = false ->
          login e m params w = (inl (client_error 422 ["password"]), w))
    /\ (validate login_params params = [] ->
        forall (u : doc) (pw h : string),
          findOne_phone (default JNull (params !! "phoneNumber")) (users w) = inr (Some u) ->
          params !! "password" = Some (JStr pw) -> u !! "password" = Some (JStr h) ->
          bcrypt_compare pw h = true ->
          exists t, login e m params w
                    = (inr (Some (<["token" := JStr t]> (pick settings_fields (entityToObject u)))), w)
            /\ (meta_token m = None -> t = generateJWT e (pick settings_fields (entityToObject u)))
            /\ (forall t0, meta_token m = Some t0 -> t0 <> "" -> t = t0)).
Proof.
  intros e m params w. unfold login, call_action. split; [|split; [|split]].
  - destruct (validate login_params params); [contradiction|reflexivity].
  - intros Hv Hn. rewrite Hv. unfold login_handler. rewrite Hn. reflexivity.
  - intros Hv u pw h Hu Hpw Hh Hc. rewrite Hv. unfold login_handler. rewrite Hu, Hpw, Hh, Hc. reflexivity.
  - intros Hv u pw h Hu Hpw Hh Hc. rewrite Hv. unfold login_handler. rewrite Hu, Hpw, Hh, Hc.
    eexists. split; [reflexivity|]. split.
    + intros ->. reflexivity.
    + intros t0 -> Hne. simpl. rewrite bool_decide_false by exact Hne. reflexivity.
Qed.

(** Registering and then logging in with the same phone number and password
    succeeds, when the hasher's digest verifies against its plaintext: the
    duplicate check makes the appended record the only one with that phone
    number, so [login] finds it (whatever [_id] it got) and answers with its
    profile and a token. *)
Theorem register_then_login (e : env) (m m' : meta) (params lp : doc) (w : world)
    (r : option doc) (w' : world) (p pw : string) :
  create e m params w = (inr r, w') ->
  params !! "phoneNumber" = Some (JStr p) -> p <> "" ->
  params !! "password" = Some (JStr pw) ->
  lp !! "phoneNumber" = Some (JStr p) -> lp !! "password" = Some (JStr pw) ->
  bcrypt_compare pw (hashSync (env_salt e) pw 10) = true ->
  exists u t, users w' = (users w ++ [u])%list
    /\ login e m' lp w'
       = (inr (Some (<["token" := JStr t]> (pick settings_fields (entityToObject u)))), w').
Proof using phone_pattern hashSync bcrypt_compare jwt_sign setDate60.
  intros Hc Hp Hne Hpw Hlp Hlpw Hcmp.
  destruct (create_ok_inv e m params w r w' Hc) as (_ & Hv & Hnf & pw' & d & Hpw' & Hi & _ & ->).
  rewrite Hpw in Hpw'. injection Hpw' as <-.
  rewrite Hp in Hnf. specialize (Hnf (proj2 (truthy_str p) Hne)). simpl default in Hnf.
  destruct (insert_ok _ _ _ _ _ Hi) as (_ & idv & Hd & _).
  assert (Hdp : d !! "phoneNumber" = Some (JStr p))
    by (rewrite Hd, lookup_insert_ne, stored_entity_lookup by discriminate; exact Hp).
  assert (Hdpw : d !! "password" = Some (JStr (hashSync (env_salt e) pw 10)))
    by (rewrite Hd, lookup_insert_ne by discriminate; unfold stored_entity;
        rewrite lookup_insert_ne by discriminate; apply lookup_insert_eq).
  set (pd := pick settings_fields (entityToObject d)).
  exists d, (match meta_token m' with
             | Some t0 => if truthy (Some (JStr t0)) then t0 else generateJWT e pd
             | None => generateJWT e pd
             end).
  split; [reflexivity|].
  assert (Hf : findOne_phone (JStr p) (users w ++ [d])%list = inr (Some d)).
  { revert Hnf. unfold findOne_phone, find_eq. simpl is_operator_object. cbv iota.
    destruct (find_first _ (users w)) eqn:Hn; [destruct p0 as [[? ?] ?]; discriminate|]. intros _.
    apply find_first_None in Hn. rewrite find_first_app; [reflexivity|exact Hn|].
    simpl. rewrite Hdp. apply bool_decide_true. reflexivity. }
  assert (Hl : validate login_params lp = []).
  { apply validate_nil_iff in Hv. unfold entityValidator in Hv. rewrite !Forall_cons in Hv.
    destruct Hv as (_ & Hmin & _). apply check_min_rule in Hmin as (x & Hx & Hlen).
    cbn [fst snd] in Hx. rewrite Hpw in Hx. injection Hx as <-.
    apply validate_nil_iff. unfold login_params. rewrite !Forall_cons.
    split; [apply check_str_rule; exists p; exact Hlp|].
    split; [apply check_min_rule; exists pw; split; [exact Hlpw | exact Hlen] | constructor]. }
  unfold login, call_action. rewrite Hl. unfold login_handler. rewrite Hlp. simpl default.
  simpl users. rewrite Hf, Hlpw, Hdpw, Hcmp. reflexivity.
Qed.

(** C1 (as the code has it): the [password] field is not filtered out.  The
    principal [authorize] attaches carries the [password] of the record it
    was resolved from (fetched from the collection, or cached for the
    token); the profiles login and the fetch-self handler return carry the
    stored record's [password] unchanged; register returns the inserted
    record, whose [password] is the hasher's digest of the supplied
    plaintext. *)
Theorem password_field_exposed :
  (forall (now : Z) (pol hdr : option string) (w : world) (m : meta) (p : doc),
      fst (authorize now pol hdr w) = inr m -> meta_user m = Some p ->
      exists u, ((exists id, getById id (users w) = inr (Some u))
                 \/ (exists t, cache_get (CKToken t) now (cache w) = Some u))
                /\ p !! "password" = u !! "password")
  /\ (forall (e : env) (m : meta) (params : doc) (w w' : world) (r : option doc),
      login e m params w = (inr r, w') ->
      exists u p, findOne_phone (default JNull (params !! "phoneNumber")) (users w) = inr (Some u)
                  /\ r = Some p /\ p !! "password" = u !! "password")
  /\ (forall (e : env) (m : meta) (w w' : world) (r : option doc),
      me_handler e m w = (inr r, w') ->
      exists id u p, getById id (users w) = inr (Some u) /\ r = Some p /\ p !! "password" = u !! "password")
  /\ (forall (e : env) (m : meta) (params : doc) (w w' : world) (r : option doc),
      create e m params w = (inr r, w') ->
      exists pw p, params !! "password" = Some (JStr pw) /\ r = Some p
                   /\ p !! "password" = Some (JStr (hashSync (env_salt e) pw 10))).
Proof using jwt_verify phone_pattern hashSync bcrypt_compare jwt_sign setDate60.
  assert (Hprof : forall e u t, exists p, transformEntity e (transformDocuments (Some u)) true t = Some p
                                          /\ p !! "password" = u !! "password").
  { intros e u t. destruct (transformEntity_lookup e (pick settings_fields (entityToObject u)) t)
      as (p & Hp & Hk).
    exists p. split; [exact Hp|]. rewrite Hk by discriminate.
    rewrite pick_lookup by (apply (bool_decide_unpack _); vm_compute; reflexivity). apply entityToObject_ne. discriminate. }
  split; [|split; [|split]].
  - intros now pol hdr w m p. unfold authorize.
    destruct (authenticate now hdr w) as [[[u t]|] w'] eqn:Ha;
      destruct (bool_decide (pol = Some "required") && _); simpl; try discriminate;
      intros Heq; injection Heq as <-; simpl; [|discriminate].
    intros Hp. injection Hp as <-. exists u. split.
    + destruct (authenticate_Some now hdr w w' u t Ha) as (_ & _ & [[Hc _] | (_ & Hr & _)]).
      * right. exists t. exact Hc.
      * left. apply resolveToken_Some in Hr as (decoded & id & _ & _ & _ & Hg). exists id. exact Hg.
    + apply pick_lookup. apply (bool_decide_unpack _); vm_compute; reflexivity.
  - intros e m params w w' r. unfold login, call_action.
    destruct (validate login_params params); [|discriminate].
    unfold login_handler.
    destruct (findOne_phone _ (users w)) as [err|[u|]]; try discriminate.
    destruct (params !! "password") as [[| | |pw| |]|]; try discriminate.
    destruct (u !! "password") as [[| | |h| |]|] eqn:Hh; try discriminate.
    destruct (bcrypt_compare pw h); [|discriminate].
    intros Heq. injection Heq as <- _.
    destruct (Hprof e u (meta_token m)) as (p & Hp & Hpw). exists u, p.
    split; [reflexivity|]. split; [exact Hp|exact Hpw].
  - intros e m w w' r. unfold me_handler.
    destruct (meta_user_id m) as [|id]; [discriminate|].
    destruct (getById id (users w)) as [err|[u|]] eqn:Hu; try discriminate.
    intros Heq. injection Heq as <- _.
    destruct (Hprof e u (meta_token m)) as (p & Hp & Hpw). exists id, u, p.
    split; [exact Hu|]. split; [exact Hp|exact Hpw].
  - intros e m params w w' r Hc.
    destruct (create_ok_inv e m params w r w' Hc) as (_ & _ & _ & pw & d & Hpw & Hi & -> & _).
    destruct (insert_ok _ _ _ _ _ Hi) as (_ & idv & -> & _).
    destruct (transformEntity_lookup e (<["_id" := idv]> (stored_entity e params pw)) (meta_token m))
      as (p & Hp & Hk).
    exists pw, p. split; [exact Hpw|]. split; [exact Hp|]. rewrite Hk by discriminate.
    rewrite lookup_insert_ne by discriminate. unfold stored_entity.
    rewrite lookup_insert_ne by discriminate. apply lookup_insert_eq.
Qed.

(** ** Fetch-self, token issue, and what the actions leave alone *)

(** The cached fetch-self action: a live cache entry for the caller's
    [ctx.meta.userID] is the answer, and nothing runs.  Otherwise, for a
    caller with no [ctx.meta.user] it throws a TypeError; for a caller whose
    record is gone it fails with 404; else it answers with the record (its
    ObjectId [_id] as a string) restricted to [settings.fields], so without
    [image], plus a [token]: the request's own token when it is a non-empty
    string, else a freshly issued one; that profile is then cached for the
    caller. *)
Theorem me_outcomes (e : env) (m : meta) (w : world) :
  (forall v, cache_get (CKUser (meta_userID m)) (env_now_ms e) (cache w) = Some v ->
     me e m w = (inr (Some v), w))
  /\ (cache_get (CKUser (meta_userID m)) (env_now_ms e) (cache w) = None ->
      (meta_user m = None -> me e m w = (inl (mkError "TypeError" 500 []), w))
      /\ (forall id, meta_user_id m = inr id -> getById id (users w) = inr None ->
            me e m w = (inl (client_error 404 []), w))
      /\ (forall id u, meta_user_id m = inr id -> getById id (users w) = inr (Some u) ->
            exists t,
              me e m w
              = (inr (Some (<["token" := JStr t]> (pick settings_fields (entityToObject u)))),
                 mkWorld (users w) (files w)
                   (cache_set (CKUser (meta_userID m))
                      (<["token" := JStr t]> (pick settings_fields (entityToObject u)))
                      cacher_ttl (env_now_ms e) (cache w)))
              /\ (forall t0, meta_token m = Some t0 -> t0 <> "" -> t = t0)
              /\ (meta_token m = None \/ meta_token m = Some "" ->
                  t = generateJWT e (pick settings_fields (entityToObject u))))).
Proof.
  unfold me. split.
  - intros v ->. reflexivity.
  - intros Hc. rewrite Hc. unfold me_handler. split; [|split].
    + unfold meta_user_id. intros ->. reflexivity.
    + intros id -> ->. reflexivity.
    + intros id u -> ->. eexists. split; [reflexivity|]. split.
      * intros t0 -> Hne. simpl. rewrite bool_decide_false by exact Hne. reflexivity.
      * intros [-> | ->]; reflexivity.
Qed.

(** The token a profile gets when the request carries none is [jwt.sign]
    of a payload with exactly three properties: [id] and [phoneNumber]
    copied from the record as JSON (an ObjectId [_id] as its hex string;
    absent when the record lacks them) and [exp], the instant 60 calendar
    days after now, in whole seconds. *)
Theorem generateJWT_payload (e : env) (u : doc) :
  exists payload, generateJWT e u = jwt_sign payload
    /\ payload !! "exp" = Some (JNum (setDate60 (env_now_ms e) / 1000)%Z)
    /\ payload !! "id" = to_json <$> u !! "_id"
    /\ (forall h, u !! "_id" = Some (JOid h) -> payload !! "id" = Some (JStr h))
    /\ payload !! "phoneNumber" = to_json <$> u !! "phoneNumber"
    /\ (forall k, k <> "exp" -> k <> "id" -> k <> "phoneNumber" -> payload !! k = None).
Proof.
  eexists. split; [reflexivity|]. unfold set_opt.
  destruct (u !! "_id") as [i|]; destruct (u !! "phoneNumber") as [p|]; simpl;
    repeat split; intros;
    repeat first [ rewrite lookup_insert_eq | rewrite lookup_insert_ne by congruence
                 | rewrite lookup_singleton_eq | rewrite lookup_singleton_ne by congruence ];
    first [ reflexivity | discriminate
          | match goal with H : Some _ = Some _ |- _ => injection H as ->; reflexivity end
          | congruence ].
Qed.

(** [login] never changes the world; [create], [update] and [delete] leave
    it as it was whenever they fail (a failed parameter check, a duplicate
    phone number or [_id], a caller with no [ctx.meta.user], an update the
    server refuses, an id that matches nothing). *)
Theorem failures_leave_world (e : env) (m : meta) (params : doc) (w : world) :
  snd (login e m params w) = w
  /\ (forall err w', create e m params w = (inl err, w') -> w' = w)
  /\ (forall err w', update e m params w = (inl err, w') -> w' = w)
  /\ (forall (ps : list (string * jsval)) err w', delete_handler m ps w = (inl err, w') -> w' = w).
Proof.
  split; [|split; [|split]].
  - unfold login, call_action. destruct (validate login_params params); [|reflexivity].
    unfold login_handler. destruct (findOne_phone _ _) as [err|[u|]]; try reflexivity.
    destruct (params !! "password") as [[| | |pw| |]|]; try reflexivity;
      destruct (u !! "password") as [[| | |h| |]|]; try reflexivity.
    destruct (bcrypt_compare pw h); reflexivity.
  - intros err w'. unfold create, call_action.
    destruct (validate create_params params); [|intros Heq; injection Heq as _ <-; reflexivity].
    unfold create_handler.
    destruct (validate entityValidator params); [|intros Heq; injection Heq as _ <-; reflexivity].
    destruct (if truthy _ then _ else inr None) as [e'|[u|]];
      try (intros Heq; injection Heq as _ <-; reflexivity).
    destruct (params !! "password") as [[| | |pw| |]|];
      try (intros Heq; injection Heq as _ <-; reflexivity).
    destruct (insert _ _ _) as [e'|[d s']]; [intros Heq; injection Heq as _ <-; reflexivity|].
    discriminate.
  - intros err w'. unfold update, call_action.
    destruct (validate update_params params); [|intros Heq; injection Heq as _ <-; reflexivity].
    unfold update_handler. destruct (meta_user_id m) as [|id];
      [intros Heq; injection Heq as _ <-; reflexivity|].
    destruct (updateById id params (users w)) as [e'|[d s']];
      [intros Heq; injection Heq as _ <-; reflexivity|discriminate].
  - intros ps err w'. unfold delete_handler.
    destruct (getById _ _) as [e'|[d|]]; try (intros Heq; injection Heq as _ <-; reflexivity).
    destruct (removeById _ _) as [e'|[res s']]; [intros Heq; injection Heq as _ <-; reflexivity|].
    discriminate.
Qed.

(** ** Partial update *)

Lemma apply_set_some (sets : list (string * jsval)) (d : doc) :
  Forall (fun kv => split_on "." kv.1 = [kv.1]) sets -> exists d', apply_set sets d = Some d'.
Proof.
  revert d. induction sets as [|[k v] rest IH]; simpl; intros d Hf; [eauto|].
  apply Forall_cons in Hf as [Hk Hf]. simpl in Hk. rewrite Hk. simpl. exact (IH _ Hf).
Qed.

(** Keys without a dot: the update is the union, the supplied values
    first. *)
Lemma apply_set_union (upd d : doc) :
  set_paths_error upd = None ->
  (forall key v, upd !! key = Some v -> has_char "." key = false) ->
  apply_set (map_to_list upd) d = Some (upd ∪ d).
Proof.
  intros Hp Hflat.
  assert (Hs : Forall (fun kv => split_on "." kv.1 = [kv.1]) (map_to_list upd)).
  { apply Forall_forall. intros [k v] Hin. apply elem_of_map_to_list in Hin.
    apply split_on_no_char. exact (Hflat k v Hin). }
  destruct (apply_set_some _ d Hs) as [d' Ha]. rewrite Ha. f_equal.
  apply map_eq. intros k. rewrite lookup_union. destruct (upd !! k) as [v|] eqn:Hk.
  - rewrite (apply_set_flat _ d d' k v Ha).
    + destruct (d !! k); reflexivity.
    + apply NoDup_fst_map_to_list.
    + apply elem_of_map_to_list. exact Hk.
    + apply split_on_no_char. exact (Hflat k v Hk).
    + exact (set_paths_flat upd k v Hp Hk (split_on_no_char "." k (Hflat k v Hk))).
  - rewrite (apply_set_frame _ d d' k Ha).
    + destruct (d !! k); reflexivity.
    + apply Forall_forall. intros [k1 v1] Hin. apply elem_of_map_to_list in Hin. simpl.
      rewrite (split_on_no_char "." k1 (Hflat k1 v1 Hin)). simpl. intros Heq. injection Heq as ->.
      congruence.
Qed.

Lemma updateById_flat (id : jsval) (upd : doc) (s : store) (pre post : list doc) (d : doc) :
  is_operator_object (stringToObjectID id) = false ->
  find_first (fun x => value_matches (stringToObjectID id) (x !! "_id")) s = Some (pre, d, post) ->
  set_paths_error upd = None ->
  (forall key v, upd !! key = Some v -> has_char "." key = false /\ key <> "_id") ->
  updateById id upd s = inr (Some (upd ∪ d), (pre ++ (upd ∪ d) :: post)%list).
Proof.
  intros Hop Hf Hp Hflat. unfold updateById, find_eq. rewrite Hp, Hop, Hf.
  rewrite apply_set_union by (exact Hp || (intros key v Hk; apply (Hflat key v Hk))).
  rewrite bool_decide_true; [reflexivity|].
  rewrite lookup_union. destruct (upd !! "_id") as [v|] eqn:Hid.
  - exfalso. exact (proj2 (Hflat "_id" v Hid) eq_refl).
  - destruct (d !! "_id"); reflexivity.
Qed.

(** C10 (as the code has it): an update-self request by a stored caller
    replaces the caller's record in place and touches no other record;
    afterwards the record is still the one found by the caller's id.  Every
    field of the record that no key of the request addresses (a key
    addresses the field named by its part before the first dot) keeps its
    value; when the update succeeds, a key without a dot sets its field to
    the supplied value. *)
Theorem update_only_supplied_fields :
  forall (e : env) (m : meta) (params : doc) (w : world) (id : jsval) (d : doc),
    meta_user_id m = inr id -> getById id (users w) = inr (Some d) ->
    exists pre post d',
      users w = (pre ++ d :: post)%list
      /\ users (snd (update e m params w)) = (pre ++ d' :: post)%list
      /\ getById id (users (snd (update e m params w))) = inr (Some d')
      /\ (forall k, (forall key v, params !! key = Some v -> head (split_on "." key) <> Some k) ->
            d' !! k = d !! k)
      /\ (forall r, fst (update e m params w) = inr r ->
            forall key v, params !! key = Some v -> has_char "." key = false -> d' !! key = Some v).
Proof.
  intros e m params w id d Hm Hg.
  destruct (getById_Some _ _ _ Hg) as (Hop & pre & post & Hf).
  destruct (find_first_Some _ _ _ _ _ Hf) as (Hs & _ & _).
  exists pre, post. unfold update, call_action.
  destruct (validate update_params params) eqn:Hv; 
    [|exists d; simpl; split; [exact Hs|]; split; [exact Hs|];
      split; [exact Hg|]; split; [auto|]; intros r Hr; discriminate Hr].
  unfold update_handler. rewrite Hm.
  destruct (updateById_cases id params (users w) pre post d Hop Hf)
    as [[err Herr] | (d' & Hp & Ha & Hid & Hu)].
  - rewrite Herr. exists d. simpl. split; [exact Hs|]. split; [exact Hs|].
    split; [exact Hg|]. split; [auto|]. intros r Hr. discriminate Hr.
  - rewrite Hu. exists d'. simpl. split; [exact Hs|]. split; [reflexivity|].
    split; [exact (getById_replace id (users w) pre post d d' Hop Hf Hid)|]. split.
    + intros k Hk. apply (apply_set_frame _ d d' k Ha). apply Forall_forall. intros [key v] Hin.
      apply elem_of_map_to_list in Hin. exact (Hk key v Hin).
    + intros r _ key v Hk Hdot. apply (apply_set_flat _ d d' key v Ha).
      * apply NoDup_fst_map_to_list.
      * apply elem_of_map_to_list. exact Hk.
      * apply split_on_no_char. exact Hdot.
      * exact (set_paths_flat params key v Hp Hk (split_on_no_char "." key Hdot)).
Qed.

(** A validated update-self request that the server accepts: when the
    caller's record is gone it answers with no profile, changes no record
    and clears the cache; for a stored caller, with keys that have no dot
    and do not name [_id], the record becomes the union of the request and
    the record (supplied values first), the answer is that record as a
    profile with a token, the cache is cleared, and a fetch-self right after
    it answers with that same profile. *)
Theorem update_outcomes (e : env) (m : meta) (params : doc) (w : world) :
  (validate update_params params = [] -> set_paths_error params = None ->
     forall id, meta_user_id m = inr id -> getById id (users w) = inr None ->
     update e m params w = (inr None, clear_cache w))
  /\ (validate update_params params = [] -> set_paths_error params = None ->
      (forall key v, params !! key = Some v -> has_char "." key = false /\ key <> "_id") ->
      forall id d, meta_user_id m = inr id -> getById id (users w) = inr (Some d) ->
        fst (update e m params w)
        = inr (transformEntity e (transformDocuments (Some (params ∪ d))) true (meta_token m))
        /\ getById id (users (snd (update e m params w))) = inr (Some (params ∪ d))
        /\ cache (snd (update e m params w)) = []
        /\ fst (me e m (snd (update e m params w))) = fst (update e m params w)).
Proof.
  unfold update, call_action, update_handler. split.
  - intros Hv Hp id Hm Hg. rewrite Hv, Hm. destruct (getById_None _ _ Hg) as [Hop Hf].
    rewrite (updateById_missing id params (users w) Hop Hf Hp). reflexivity.
  - intros Hv Hp Hflat id d Hm Hg. rewrite Hv, Hm.
    destruct (getById_Some _ _ _ Hg) as (Hop & pre & post & Hf).
    rewrite (updateById_flat id params (users w) pre post d Hop Hf Hp Hflat). simpl.
    assert (Hg' : getById id (pre ++ (params ∪ d) :: post)%list = inr (Some (params ∪ d))).
    { apply (getById_replace id (users w) pre post d _ Hop Hf).
      rewrite lookup_union. destruct (params !! "_id") as [v|] eqn:Hid.
      - exfalso. exact (proj2 (Hflat "_id" v Hid) eq_refl).
      - destruct (d !! "_id"); reflexivity. }
    split; [reflexivity|]. split; [exact Hg'|]. split; [reflexivity|].
    unfold me, me_handler. simpl. unfold cache_get. simpl. rewrite Hm, Hg'. reflexivity.
Qed.

(** ** Avatar upload and download *)

Lemma run_writes (m : meta) (fp : string) (cs : list string) (w : world) (acc : string) :
  files w !! fp = Some acc ->
  run_events m fp (map EvWrite cs) w
  = mkWorld (users w) (<[fp := foldl String.append acc cs]> (files w)) (cache w).
Proof.
  unfold run_events. revert w acc. induction cs as [|c cs IH]; intros w acc Hacc; simpl.
  - destruct w as [u f c]. simpl in *. rewrite insert_id by exact Hacc. reflexivity.
  - rewrite Hacc. simpl.
    rewrite (IH (mkWorld (users w) (<[fp := String.append acc c]> (files w)) (cache w))
               (String.append acc c)) by apply lookup_insert_eq.
    simpl. rewrite insert_insert_eq. reflexivity.
Qed.

Lemma uploadImage_effect (e : env) (m : meta) (filename : option string) (src : source)
    (w : world) (id : jsval) (pre post : list doc) (d : doc) :
  meta_user_id m = inr id -> is_operator_object (stringToObjectID id) = false ->
  find_first (fun x => value_matches (stringToObjectID id) (x !! "_id")) (users w) = Some (pre, d, post) ->
  uploadImage e m filename src w
  = (inr tt,
     mkWorld (pre ++ <["image" := JStr (upload_path e filename)]> d :: post)%list
       (match src with
        | SrcEnd cs => <[upload_path e filename := foldl String.append "" cs]> (files w)
        | SrcError _ _ => delete (upload_path e filename) (files w)
        end) []).
Proof.
  intros Hm Hop Hf. unfold uploadImage.
  set (fp := upload_path e filename).
  set (w0 := mkWorld (users w) (<[fp := ""]> (files w)) (cache w)).
  assert (Hw := run_writes m fp (match src with SrcEnd cs => cs | SrcError cs _ => cs end) w0 ""
                  (lookup_insert_eq _ _ _)).
  unfold run_events in *.
  destruct src as [cs|cs msg]; simpl ws_events; rewrite fold_left_app, Hw; simpl;
    rewrite Hm; rewrite (updateById_image id fp (users w) pre post d Hop Hf); simpl.
  - rewrite insert_insert_eq. reflexivity.
  - rewrite delete_insert_eq, delete_insert_eq. reflexivity.
Qed.

(** An avatar upload by a stored caller answers at once and, once the
    stream has ended, has set the caller's [image] to the path written to,
    in place, leaving the caller's other fields and the other records as
    they were, and has cleared the cache; no other file changes; the file
    holds the chunks received, in order, when the stream ended normally, and
    is gone after a transport error. *)
Theorem uploadImage_outcome (e : env) (m : meta) (filename : option string) (src : source)
    (w : world) (id : jsval) (d : doc) :
  meta_user_id m = inr id -> getById id (users w) = inr (Some d) ->
  fst (uploadImage e m filename src w) = inr tt
  /\ (exists pre post, users w = (pre ++ d :: post)%list
        /\ users (snd (uploadImage e m filename src w))
           = (pre ++ <["image" := JStr (upload_path e filename)]> d :: post)%list)
  /\ getById id (users (snd (uploadImage e m filename src w)))
     = inr (Some (<["image" := JStr (upload_path e filename)]> d))
  /\ cache (snd (uploadImage e m filename src w)) = []
  /\ (forall q, q <> upload_path e filename -> files (snd (uploadImage e m filename src w)) !! q = files w !! q)
  /\ files (snd (uploadImage e m filename src w)) !! upload_path e filename
     = match src with SrcEnd cs => Some (foldl String.append "" cs) | SrcError _ _ => None end.
Proof.
  intros Hm Hg. destruct (getById_Some _ _ _ Hg) as (Hop & pre & post & Hf).
  destruct (find_first_Some _ _ _ _ _ Hf) as (Hs & _ & _).
  rewrite (uploadImage_effect e m filename src w id pre post d Hm Hop Hf). simpl.
  split; [reflexivity|]. split; [eauto|]. split.
  - apply (getById_replace id (users w) pre post d _ Hop Hf).
    apply lookup_insert_ne. discriminate.
  - split; [reflexivity|]. split.
    + intros q Hq. destruct src; [apply lookup_insert_ne|apply lookup_delete_ne]; congruence.
    + destruct src; [apply lookup_insert_eq|apply lookup_delete_eq].
Qed.

(** Uploading an avatar and then downloading it gives back what was
    uploaded: after an upload whose stream ended normally, [getImage] answers
    with an [image/png] stream of the uploaded chunks, in order. *)
Theorem upload_then_getImage (e : env) (m : meta) (filename : option string) (cs : list string)
    (w : world) (id : jsval) (d : doc) :
  meta_user_id m = inr id -> getById id (users w) = inr (Some d) ->
  getImage_action m (snd (uploadImage e m filename (SrcEnd cs) w))
  = (inr (RStream "image/png" (SBytes (foldl String.append "" cs))),
     snd (uploadImage e m filename (SrcEnd cs) w)).
Proof.
  intros Hm Hg. destruct (uploadImage_outcome e m filename (SrcEnd cs) w id d Hm Hg)
    as (_ & _ & Hg' & _ & _ & Hfile).
  destruct (uploadImage e m filename (SrcEnd cs) w) as [res w']. simpl in Hg', Hfile |- *.
  unfold getImage_action. rewrite Hm, Hg', lookup_insert_eq. unfold createReadStream.
  rewrite Hfile. reflexivity.
Qed.

(** [getImage] never changes the world.  For a caller with no
    [ctx.meta.user] it throws a TypeError; a lookup the server refuses fails
    with its error; for a caller whose record is gone it fails with 404; for
    a record whose [image] is not a string (a user who never uploaded has
    [image: null]) [fs.createReadStream] throws a TypeError; otherwise it
    answers with an [image/png] stream of the file, which fails with ENOENT
    when the file does not exist. *)
Theorem getImage_outcomes (m : meta) (w : world) :
  snd (getImage_action m w) = w
  /\ (meta_user m = None -> fst (getImage_action m w) = inl (mkError "TypeError" 500 []))
  /\ (forall id err, meta_user_id m = inr id -> getById id (users w) = inl err ->
        fst (getImage_action m w) = inl err)
  /\ (forall id, meta_user_id m = inr id -> getById id (users w) = inr None ->
        fst (getImage_action m w) = inl (client_error 404 []))
  /\ (forall id u, meta_user_id m = inr id -> getById id (users w) = inr (Some u) ->
        (forall p, u !! "image" <> Some (JStr p)) ->
        fst (getImage_action m w) = inl (mkError "TypeError" 500 []))
  /\ (forall id u p, meta_user_id m = inr id -> getById id (users w) = inr (Some u) ->
        u !! "image" = Some (JStr p) ->
        fst (getImage_action m w)
        = inr (RStream "image/png" (match files w !! p with Some c => SBytes c | None => SError "ENOENT" end))).
Proof.
  unfold getImage_action. split; [|split; [|split; [|split; [|split]]]].
  - destruct (meta_user_id m) as [|id]; [reflexivity|].
    destruct (getById id (users w)) as [err|[u|]]; try reflexivity.
    destruct (createReadStream _ _); reflexivity.
  - unfold meta_user_id. intros ->. reflexivity.
  - intros id err -> ->. reflexivity.
  - intros id -> ->. reflexivity.
  - intros id u -> -> Hi. unfold createReadStream.
    destruct (u !! "image") as [[| | |p| |]|]; try reflexivity. exfalso. exact (Hi p eq_refl).
  - intros id u p -> -> Hi. unfold createReadStream. rewrite Hi. reflexivity.
Qed.

(** ** Evaluations at inputs where the code departs from the spec *)

(** C2: an update-self request carrying [password] (with the [id] the
    merged action schema requires) passes the parameter check and stores the
    password as given: the handler passes [ctx.params] to [$set] without
    hashing it. *)
Theorem update_stores_plaintext_password :
  forall (e : env),
    validate update_params {[ "id" := JStr "u1"; "password" := JStr "newpass1" ]} = []
    /\ field_of (users sample_world) "u1" "password" = Some (JStr "$2a$10$secret12")
    /\ field_of (users (snd (update e sample_meta
                               {[ "id" := JStr "u1"; "password" := JStr "newpass1" ]} sample_world)))
         "u1" "password" = Some (JStr "newpass1").
Proof. intros e. split; [|split]; vm_compute; reflexivity. Qed.

(** C3: an upload interrupted by a transport error: the partial file is
    unlinked by the [error] listener, but the [close] event that follows
    [f.destroy(err)] still runs the profile update, so the caller's [image]
    changes from [null] to the removed file's path. *)
Theorem upload_error_still_updates_image :
  forall (e : env),
    let w' := snd (uploadImage e sample_meta (Some "a.png") (SrcError ["part"] "aborted") sample_world) in
    files w' !! path_join uploadDir "a.png" = None
    /\ field_of (users sample_world) "u1" "image" = Some JNull
    /\ field_of (users w') "u1" "image" = Some (JStr (path_join uploadDir "a.png")).
Proof.
  intros e. simpl. split; [|split].
  - apply lookup_delete_eq.
  - reflexivity.
  - vm_compute. reflexivity.
Qed.

(** C4: [delete] looks the user up by [ctx.params], the whole params object
    ([{ id }] for [DELETE /users/:id]), as the value of [_id]: unless a
    stored record's [_id] is that very object, it fails with 404 and removes
    nothing, also when the user with that id exists. *)
Theorem delete_looks_up_params_object :
  (forall (m : meta) (uid : string) (w : world),
     (forall d, d ∈ users w -> d !! "_id" <> Some (JObj [("id", JStr uid)])) ->
     delete_handler m [("id", JStr uid)] w = (inl (client_error 404 []), w))
  /\ getById (JStr "u1") (users sample_world) = inr (Some sample_user)
  /\ delete_handler sample_meta [("id", JStr "u1")] sample_world
     = (inl (client_error 404 []), sample_world).
Proof.
  split; [|split; [vm_compute; reflexivity | vm_compute; reflexivity]].
  intros m uid w Hno. unfold delete_handler, getById, find_eq. simpl.
  replace (find_first _ (users w)) with (@None (list doc * doc * list doc)); [reflexivity|].
  symmetry. apply find_first_None. apply Forall_forall. intros d Hd.
  apply bool_decide_false. exact (Hno d Hd).
Qed.

(** C5: a user whose [image] path names no file: the action answers with an
    [image/png] stream that fails with ENOENT, not a 404; the [getImage]
    method, which does check the path, is not called (and its missing-file
    branch throws a ReferenceError). *)
Theorem getImage_missing_file_streams_error :
  let w := mkWorld [<["image" := JStr "/srv/__uploads/a.png"]> sample_user] ∅ [] in
  getImage_action sample_meta w = (inr (RStream "image/png" (SError "ENOENT")), w)
  /\ getImage_method "/srv/__uploads/a.png" (files w) = inl (mkError "ReferenceError" 500 []).
Proof. split; vm_compute; reflexivity. Qed.
End Service.

(** ** Concrete runs *)

(** C7 witness: a token that verifies for ["u9"], who is not stored, and
    is not in the cache. *)
Lemma authenticate_anonymous_cases_witness :
  authenticate sample_verify 1700000000000 (Some "Bearer tokB") sample_world = (None, sample_world).
Proof.
  apply (proj1 (authenticate_anonymous_cases sample_verify 1700000000000 (Some "Bearer tokB") sample_world)).
  right; right; right; right.
  exists "tokB", {[ "id" := JStr "u9" ]}, (JStr "u9").
  split; [vm_compute; reflexivity|]. split; [vm_compute; reflexivity|].
  split; [vm_compute; reflexivity|]. split; vm_compute; reflexivity.
Defined.

(** C7 counterexample: the owner of ["tokA"] authenticates once, which
    caches the token for an hour; the record is then removed from the
    store, but a minute later the token still authenticates as that user. *)
Lemma deleted_user_cached_token :
  let w1 := snd (authorize sample_verify 1700000000000 None (Some "Bearer tokA") sample_world) in
  let w2 := mkWorld [] (files w1) (cache w1) in
  sample_verify 1700000060000 "tokA" = inr {[ "id" := JStr "u1" ]}
  /\ getById (JStr "u1") (users w2) = inr None
  /\ fst (authenticate sample_verify 1700000060000 (Some "Bearer tokA") w2) = Some (sample_user, "tokA").
Proof. split; [|split]; vm_compute; reflexivity. Qed.

(** C10 witness: updating only [fullname] (with the required [id]) leaves
    [city] as it was. *)
Lemma update_only_supplied_fields_witness :
  exists pre post d',
    users sample_world = (pre ++ sample_user :: post)%list
    /\ getById (JStr "u1")
         (users (snd (update sample_pattern sample_sign sample_setDate60 sample_env sample_meta
                        fullname_params sample_world)))
       = inr (Some d')
    /\ d' !! "city" = Some (JStr "Hanoi").
Proof.
  destruct (update_only_supplied_fields sample_pattern sample_sign sample_setDate60 sample_env sample_meta
              fullname_params sample_world (JStr "u1") sample_user
              ltac:(vm_compute; reflexivity) ltac:(vm_compute; reflexivity))
    as (pre & post & d' & Hs & _ & Hg & Hf & _).
  exists pre, post, d'. split; [exact Hs|]. split; [exact Hg|].
  rewrite (Hf "city"); [vm_compute; reflexivity|].
  intros key v Hk. unfold fullname_params in Hk. apply lookup_insert_Some in Hk as [[<- _]|[_ Hk]].
  - vm_compute. intros Hc. discriminate Hc.
  - apply lookup_singleton_Some in Hk as [<- _]. vm_compute. intros Hc. discriminate Hc.
Defined.

(** C10 counterexample: an update whose only other key is the dotted
    ["inviteCode.x"] succeeds and creates the field [inviteCode], which the
    request does not name as a key and the record did not have. *)
Lemma update_dotted_key_sets_absent_field :
  validate sample_pattern update_params dotted_params = []
  /\ dotted_params !! "inviteCode" = None
  /\ sample_user !! "inviteCode" = None
  /\ (exists r, fst (update sample_pattern sample_sign sample_setDate60 sample_env sample_meta dotted_params sample_world) = inr r)
  /\ field_of (users (snd (update sample_pattern sample_sign sample_setDate60 sample_env sample_meta dotted_params sample_world)))
       "u1" "inviteCode" = Some (JObj [("x", JStr "y")]).
Proof.
  split; [vm_compute; reflexivity|]. split; [vm_compute; reflexivity|].
  split; [vm_compute; reflexivity|]. split; [|vm_compute; reflexivity].
  eexists. vm_compute. reflexivity.
Qed.

(** C1 counterexample: the principal attached for the owner of ["tokA"],
    and that user's login profile, both hold the stored password hash. *)
Lemma principal_and_profile_hold_hash :
  match fst (authorize sample_verify 1700000000000 (Some "required") (Some "Bearer tokA") sample_world) with
  | inr m => meta_user m ≫= (fun p => p !! "password")
  | inl _ => None
  end = Some (JStr "$2a$10$secret12")
  /\ match fst (login sample_pattern sample_compare sample_sign sample_setDate60 sample_env empty_meta
                  login_ok sample_world) with
     | inr (Some p) => p !! "password"
     | _ => None
     end = Some (JStr "$2a$10$secret12").
Proof. split; vm_compute; reflexivity. Qed.

(** C8 counterexample: a registration with a stored phone number and a
    too-short password fails citing [password], not [phoneNumber]; and a
    registration sent with the token of user ["u1"] answers with that
    token, not one issued for the new record. *)
Lemma register_short_password_and_reused_token :
  create sample_pattern sample_hash sample_sign sample_setDate60 sample_env empty_meta short_dup_params sample_world
    = (inl (validation_error ["password"]), sample_world)
  /\ validation_error ["password"] <> client_error 422 ["phoneNumber"]
  /\ sample_verify 1700000000000 "tokA" = inr {[ "id" := JStr "u1" ]}
  /\ match fst (create sample_pattern sample_hash sample_sign sample_setDate60 sample_env sample_meta
                  new_params sample_world) with
     | inr (Some p) => (p !! "token", p !! "_id")
     | _ => (None, None)
     end = (Some (JStr "tokA"), Some (JOid (env_new_id sample_env))).
Proof. split; [|split; [|split]]; [vm_compute; reflexivity | discriminate | vm_compute; reflexivity..]. Qed.

(** C8 witness: a valid registration with the stored phone number. *)
Lemma register_duplicate_or_hashed_witness :
  create sample_pattern sample_hash sample_sign sample_setDate60 sample_env empty_meta dup_params sample_world
    = (inl (client_error 422 ["phoneNumber"]), sample_world).
Proof.
  apply (proj1 (proj2 (proj2 (register_duplicate_or_hashed sample_pattern sample_hash sample_sign
                                sample_setDate60 sample_env empty_meta dup_params sample_world)))
           ltac:(vm_compute; reflexivity) ltac:(vm_compute; reflexivity) "0912345678" sample_user).
  - vm_compute. reflexivity.
  - discriminate.
  - vm_compute. reflexivity.
Defined.

(** C9 counterexample: a login with an unknown phone number and a short
    password fails citing [password], not [phoneNumber]. *)
Lemma login_unknown_phone_short_password :
  findOne_phone (JStr "0900000000") (users sample_world) = inr None
  /\ login sample_pattern sample_compare sample_sign sample_setDate60 sample_env empty_meta
       login_unknown_short sample_world
     = (inl (validation_error ["password"]), sample_world)
  /\ validation_error ["password"] <> client_error 422 ["phoneNumber"].
Proof. split; [|split]; [vm_compute; reflexivity.. | discriminate]. Qed.

(** C9 witness: the stored user's credentials, with no token in the
    request, get the profile and a freshly issued token. *)
Lemma login_outcomes_witness :
  exists t, login sample_pattern sample_compare sample_sign sample_setDate60 sample_env empty_meta
              login_ok sample_world
            = (inr (Some (<["token" := JStr t]> (pick settings_fields (entityToObject sample_user)))), sample_world)
    /\ (meta_token empty_meta = None ->
        t = generateJWT sample_sign sample_setDate60 sample_env (pick settings_fields (entityToObject sample_user)))
    /\ (forall t0, meta_token empty_meta = Some t0 -> t0 <> "" -> t = t0).
Proof.
  apply (proj2 (proj2 (proj2 (login_outcomes sample_pattern sample_compare sample_sign sample_setDate60
                                sample_env empty_meta login_ok sample_world)))
           ltac:(vm_compute; reflexivity) sample_user "secret12" "$2a$10$secret12").
  all: vm_compute; reflexivity.
Defined.

(** ** Concrete runs of the further properties *)

(** A valid registration with a new phone number succeeds, and meets the
    requirements on its fields. *)
Lemma create_success_requires_witness :
  exists r w', create sample_pattern sample_hash sample_sign sample_setDate60 sample_env empty_meta
                 new_params sample_world = (inr r, w')
    /\ (exists ph, new_params !! "phoneNumber" = Some (JStr ph) /\ sample_pattern ph = true)
    /\ (exists pw, new_params !! "password" = Some (JStr pw) /\ 6 <= String.length pw)
    /\ (exists n, new_params !! "fullname" = Some (JStr n) /\ n <> "")
    /\ (exists b, new_params !! "birthday" = Some (JStr b))
    /\ (exists g, new_params !! "gender" = Some (JBool g))
    /\ (exists c, new_params !! "city" = Some (JStr c)).
Proof.
  destruct (create sample_pattern sample_hash sample_sign sample_setDate60 sample_env empty_meta
              new_params sample_world) as [[err|r] w'] eqn:Hc; [vm_compute in Hc; discriminate|].
  exists r, w'. split; [reflexivity|].
  exact (create_success_requires sample_pattern sample_hash sample_sign sample_setDate60 sample_env
           empty_meta new_params sample_world r w' Hc).
Defined.

(** The same registration gets a fresh [_id] and stores its avatar path as
    given. *)
Lemma create_stored_record_witness :
  exists r w', create sample_pattern sample_hash sample_sign sample_setDate60 sample_env empty_meta
                 new_params sample_world = (inr r, w')
    /\ files w' = files sample_world /\ cache w' = []
    /\ exists d, users w' = (users sample_world ++ [d])%list
       /\ (((new_params !! "_id" = None \/ new_params !! "_id" = Some JNull)
            /\ d !! "_id" = Some (JOid (env_new_id sample_env)))
           \/ (new_params !! "_id" <> None /\ new_params !! "_id" <> Some JNull
               /\ d !! "_id" = new_params !! "_id"))
       /\ Forall (fun d0 => d0 !! "_id" <> d !! "_id") (users sample_world)
       /\ ((exists i, i <> "" /\ new_params !! "image" = Some (JStr i) /\ d !! "image" = Some (JStr i))
           \/ ((new_params !! "image" = None \/ new_params !! "image" = Some JNull
                \/ new_params !! "image" = Some (JStr "")) /\ d !! "image" = Some JNull))
       /\ (forall k, k <> "_id" -> k <> "image" -> k <> "password" -> d !! k = new_params !! k).
Proof.
  destruct (create sample_pattern sample_hash sample_sign sample_setDate60 sample_env empty_meta
              new_params sample_world) as [[err|r] w'] eqn:Hc; [vm_compute in Hc; discriminate|].
  exists r, w'. split; [reflexivity|].
  exact (create_stored_record sample_pattern sample_hash sample_sign sample_setDate60 sample_env
           empty_meta new_params sample_world r w' Hc).
Defined.

(** Registering the new user and logging in with the same credentials. *)
Lemma register_then_login_witness :
  exists r w', create sample_pattern sample_hash sample_sign sample_setDate60 sample_env empty_meta
                 new_params sample_world = (inr r, w')
    /\ exists u t, users w' = (users sample_world ++ [u])%list
       /\ login sample_pattern sample_compare sample_sign sample_setDate60 sample_env empty_meta login_new w'
          = (inr (Some (<["token" := JStr t]> (pick settings_fields (entityToObject u)))), w').
Proof.
  destruct (create sample_pattern sample_hash sample_sign sample_setDate60 sample_env empty_meta
              new_params sample_world) as [[err|r] w'] eqn:Hc; [vm_compute in Hc; discriminate|].
  exists r, w'. split; [reflexivity|].
  apply (register_then_login sample_pattern sample_hash sample_compare sample_sign sample_setDate60
           sample_env empty_meta empty_meta new_params login_new sample_world r w' "0987654321" "secret99" Hc).
  all: try discriminate. all: vm_compute; reflexivity.
Defined.

(** An upload of two chunks by the owner of ["tokA"]. *)
Lemma uploadImage_outcome_witness :
  let w' := snd (uploadImage sample_join "/srv/__uploads" sample_env sample_meta (Some "a.png")
                   (SrcEnd ["ab"; "cd"]) sample_world) in
  fst (uploadImage sample_join "/srv/__uploads" sample_env sample_meta (Some "a.png")
         (SrcEnd ["ab"; "cd"]) sample_world) = inr tt
  /\ (exists pre post, users sample_world = (pre ++ sample_user :: post)%list
        /\ users w' = (pre ++ <["image" := JStr (upload_path sample_join "/srv/__uploads" sample_env (Some "a.png"))]>
                               sample_user :: post)%list)
  /\ getById (JStr "u1") (users w')
     = inr (Some (<["image" := JStr (upload_path sample_join "/srv/__uploads" sample_env (Some "a.png"))]> sample_user))
  /\ cache w' = []
  /\ (forall q, q <> upload_path sample_join "/srv/__uploads" sample_env (Some "a.png") ->
        files w' !! q = files sample_world !! q)
  /\ files w' !! upload_path sample_join "/srv/__uploads" sample_env (Some "a.png")
     = Some (foldl String.append "" ["ab"; "cd"]).
Proof.
  exact (uploadImage_outcome sample_join "/srv/__uploads" sample_env sample_meta (Some "a.png")
           (SrcEnd ["ab"; "cd"]) sample_world (JStr "u1") sample_user
           ltac:(vm_compute; reflexivity) ltac:(vm_compute; reflexivity)).
Defined.

(** The same upload, downloaded again. *)
Lemma upload_then_getImage_witness :
  getImage_action sample_meta
    (snd (uploadImage sample_join "/srv/__uploads" sample_env sample_meta None (SrcEnd ["ab"; "cd"]) sample_world))
  = (inr (RStream "image/png" (SBytes (foldl String.append "" ["ab"; "cd"]))),
     snd (uploadImage sample_join "/srv/__uploads" sample_env sample_meta None (SrcEnd ["ab"; "cd"]) sample_world)).
Proof.
  exact (upload_then_getImage sample_join "/srv/__uploads" sample_env sample_meta None ["ab"; "cd"]
           sample_world (JStr "u1") sample_user ltac:(vm_compute; reflexivity) ltac:(vm_compute; reflexivity)).
Defined.

(** Updating [fullname] of the owner of ["tokA"]: the record becomes the
    params over the stored record, and a fetch-self sees it. *)
Lemma update_outcomes_witness :
  getById (JStr "u1")
    (users (snd (update sample_pattern sample_sign sample_setDate60 sample_env sample_meta
                   fullname_params sample_world)))
  = inr (Some (fullname_params ∪ sample_user))
  /\ fst (me sample_sign sample_setDate60 None sample_env sample_meta
            (snd (update sample_pattern sample_sign sample_setDate60 sample_env sample_meta
                    fullname_params sample_world)))
     = fst (update sample_pattern sample_sign sample_setDate60 sample_env sample_meta
              fullname_params sample_world).
Proof.
  destruct (proj2 (update_outcomes sample_pattern sample_sign sample_setDate60 None sample_env sample_meta
                     fullname_params sample_world)
              ltac:(vm_compute; reflexivity) ltac:(vm_compute; reflexivity))
    with (id := JStr "u1") (d := sample_user) as (_ & Hg & _ & Hme).
  - intros key v Hk. unfold fullname_params in Hk. apply lookup_insert_Some in Hk as [[<- _]|[_ Hk]].
    + split; [reflexivity | discriminate].
    + apply lookup_singleton_Some in Hk as [<- _]. split; [reflexivity | discriminate].
  - vm_compute. reflexivity.
  - vm_compute. reflexivity.
  - split; [exact Hg | exact Hme].
Defined.
